(** * aws-secrets-manager-fetcher: a shallow embedding of [src/main.py]

    The program lists the secrets of an AWS region, lets the operator pick
    one from a numbered menu, fetches it, and either writes it to a file or
    shows it on the terminal.  Everything it does is an effect: reading the
    environment and the keyboard, calling the remote service, printing,
    writing a file, clearing the screen.  The embedding therefore runs in a
    small state-and-exception monad over
    - a [World]: what the process finds around it and cannot change (the
      environment, the command line, the remote service's answers, the
      [json] library, the platform), and
    - a [State]: what the run consumes and produces (the lines still to be
      typed, the files, and the chronological trace of effects).

    Python exceptions are values of [exn]; a computation either returns or
    raises, and [try_except] is the only place an exception is caught. *)

From stdpp Require Import gmap strings list pretty.
From Stdlib Require Import ZArith Ascii.

Open Scope string_scope.
Open Scope list_scope.
Open Scope Z_scope.

(** ** Strings *)

Definition nl : string := String "010"%char EmptyString.

(** ** Exceptions *)

Inductive exn : Type :=
  | ClientError (code : string) (text : string)
      (* botocore.exceptions.ClientError: [code] is
         e.response["Error"]["Code"], [text] is str(e) *)
  | BotoCoreError (text : string)
      (* every other botocore failure (no credentials, no endpoint, ...) *)
  | KeyError (key : string)
  | IndexError
  | ValueError (literal : string)
  | JSONDecodeError
  | EOFError
  | OSError (path : string)
  | RecursionError.

#[global] Instance exn_eq_dec : EqDecision exn.
Proof. solve_decision. Defined.

(** ** The remote service's data *)

(** A get_secret_value response is a dict; the keys the service may leave
    out are optional fields.  A secret stored as text carries
    ["SecretString"], one stored as bytes carries ["SecretBinary"] only. *)
Record GetSecretValueResponse : Type := {
  resp_ARN : string;
  resp_Name : string;
  resp_SecretString : option string;
  resp_SecretBinary : option (list Byte.byte)
}.

(** One entry of a list_secrets page, and one page. *)
Record SecretListEntry : Type := {
  ARN : string;
  Name : string
}.

Record Page : Type := {
  SecretList : list SecretListEntry
}.

(** A client of the service, bound to a region when it is built.  The
    paginator is lazy: each page is requested when the loop asks for it, so
    each page is either delivered or fails on its own. *)
Record Client : Type := {
  get_secret_value : string -> exn + GetSecretValueResponse;
  paginate_list_secrets : list (exn + Page)
}.

(** ** The world around the process *)

Record World : Type := {
  (* os.environ *)
  environ : gmap string string;
  (* args.output after argparse: None when --output is absent *)
  args_output : option string;
  (* os.name *)
  os_name : string;
  (* boto3.session.Session().client("secretsmanager", region_name=r) *)
  session_client : string -> exn + Client;
  (* the json module: the objects it builds; json.loads, which returns an
     object or raises (JSONDecodeError for a text that is not JSON,
     ValueError for a number beyond the interpreter's digit limit,
     RecursionError for a nesting too deep); json.dumps(obj, indent=n) *)
  PyObj : Type;
  json_loads : string -> exn + PyObj;
  json_dumps : PyObj -> nat -> string;
  (* whether open(path, "w") succeeds *)
  creatable : string -> bool
}.

(** ** Effects and state *)

Inductive event : Type :=
  | EvPrint (text : string)                    (* print(text) *)
  | EvInput (prompt : string)                  (* input(prompt) *)
  | EvClient (region : string)                 (* session.client(...) *)
  | EvListSecretsPage (region : string)        (* one page requested *)
  | EvGetSecretValue (region secret_id : string)
  | EvOpenW (path : string)                    (* open(path, "w") *)
  | EvWrite (path text : string)               (* file.write(text) *)
  | EvSystem (cmd : string).                   (* os.system(cmd) *)

#[global] Instance event_eq_dec : EqDecision event.
Proof. solve_decision. Defined.

Record State : Type := {
  st_stdin : list string;          (* lines the operator has yet to type *)
  st_files : gmap string string;   (* path |-> the text written to it *)
  st_trace : list event            (* oldest first *)
}.

Definition init (stdin : list string) (files : gmap string string) : State :=
  {| st_stdin := stdin; st_files := files; st_trace := [] |}.

(** ** The monad *)

Inductive result (A : Type) : Type :=
  | Return (a : A)
  | Raise (e : exn).
Arguments Return {A} a.
Arguments Raise {A} e.

Definition M (A : Type) : Type := State -> result A * State.

#[global] Instance M_ret : MRet M := fun A a st => (Return a, st).

#[global] Instance M_bind : MBind M := fun A B f m st =>
  match m st with
  | (Return a, st') => f a st'
  | (Raise e, st') => (Raise e, st')
  end.

Definition raise {A : Type} (e : exn) : M A := fun st => (Raise e, st).

(** [try: body except handler]: an exception [e] of [body] for which
    [handler e] is [Some h] is caught and [h] runs in the state [body]
    left; any other exception goes on. *)
Definition try_except {A : Type} (body : M A) (handler : exn -> option (M A)) : M A :=
  fun st =>
    match body st with
    | (Return a, st') => (Return a, st')
    | (Raise e, st') =>
        match handler e with
        | Some h => h st'
        | None => (Raise e, st')
        end
    end.

Definition log (ev : event) : M unit := fun st =>
  (Return tt,
   {| st_stdin := st_stdin st; st_files := st_files st;
      st_trace := st_trace st ++ [ev] |}).

(** ** Python built-ins the program calls *)

Definition print (text : string) : M unit := log (EvPrint text).

(** input(prompt): the prompt is written, then a line is read; at end of
    input EOFError is raised. *)
Definition input (prompt : string) : M string := fun st =>
  let tr := st_trace st ++ [EvInput prompt] in
  match st_stdin st with
  | [] => (Raise EOFError,
           {| st_stdin := []; st_files := st_files st; st_trace := tr |})
  | line :: rest =>
      (Return line,
       {| st_stdin := rest; st_files := st_files st; st_trace := tr |})
  end.

(** Truth value of an Optional[str]: None and the empty string are false. *)
Definition truthy (o : option string) : bool :=
  match o with
  | None => false
  | Some s => negb (String.eqb s EmptyString)
  end.

(** *** int(str) *)

(** The blanks int() drops around an ASCII literal: tab to carriage return
    (9 to 13) and the space. *)
Definition is_space (c : ascii) : bool :=
  let n := nat_of_ascii c in
  ((9 <=? n) && (n <=? 13) || (n =? 32))%nat.

Definition digit_val (c : ascii) : option Z :=
  let n := nat_of_ascii c in
  if ((48 <=? n) && (n <=? 57))%nat then Some (Z.of_nat n - 48) else None.

Fixpoint lstrip (l : list ascii) : list ascii :=
  match l with
  | c :: r => if is_space c then lstrip r else l
  | [] => []
  end.

Definition strip (l : list ascii) : list ascii :=
  rev (lstrip (rev (lstrip l))).

(** Decimal digits, single underscores allowed between two digits. *)
Fixpoint digits (acc : Z) (after_digit : bool) (l : list ascii) : option Z :=
  match l with
  | [] => if after_digit then Some acc else None
  | c :: r =>
      match digit_val c with
      | Some d => digits (10 * acc + d) true r
      | None =>
          if Ascii.eqb c "_"%char && after_digit then digits acc false r
          else None
      end
  end.

(** int(s) for a str in base 10: surrounding blanks are dropped, one sign
    is allowed.  This is int() on the lines [plain_line] accepts: ASCII
    only (beyond ASCII int() knows further digits and blanks) and short
    enough for the interpreter's limit on the number of digits never to
    apply. *)
Definition parse_int (s : string) : option Z :=
  match strip (String.list_ascii_of_string s) with
  | c :: r =>
      if Ascii.eqb c "-"%char then Z.opp <$> digits 0 false r
      else if Ascii.eqb c "+"%char then digits 0 false r
      else digits 0 false (c :: r)
  | [] => None
  end.

(** The lines on which [parse_int] is int(): characters below 128, and at
    most 640 of them, the smallest limit on digits the interpreter can be
    set to (the default is 4300). *)
Definition is_ascii (c : ascii) : bool := (nat_of_ascii c <? 128)%nat.

Definition plain_line (s : string) : bool :=
  forallb is_ascii (String.list_ascii_of_string s)
  && (String.length s <=? 640)%nat.

Definition int (s : string) : M Z :=
  match parse_int s with
  | Some n => mret n
  | None => raise (ValueError s)
  end.

(** *** list[i] with Python's negative indices *)

Definition list_index {A : Type} (l : list A) (i : Z) : option A :=
  let n := Z.of_nat (length l) in
  let j := if i <? 0 then i + n else i in
  if (0 <=? j) && (j <? n) then l !! Z.to_nat j else None.

Definition getitem {A : Type} (l : list A) (i : Z) : M A :=
  match list_index l i with
  | Some a => mret a
  | None => raise IndexError
  end.

(** * The program *)

Section Program.

Context (w : World).

(** os.getenv(name) *)
Definition os_getenv (name : string) : M (option string) :=
  mret (environ w !! name).

(** session.client(service_name="secretsmanager", region_name=region) *)
Definition new_client (region : string) : M Client :=
  log (EvClient region);;
  match session_client w region with
  | inr client => mret client
  | inl e => raise e
  end.

(** client.get_secret_value(SecretId=secret_id) *)
Definition call_get_secret_value (client : Client) (region secret_id : string)
  : M GetSecretValueResponse :=
  log (EvGetSecretValue region secret_id);;
  match get_secret_value client secret_id with
  | inr response => mret response
  | inl e => raise e
  end.

(** response["SecretString"] *)
Definition getitem_SecretString (response : GetSecretValueResponse) : M string :=
  match resp_SecretString response with
  | Some s => mret s
  | None => raise (KeyError "SecretString")
  end.

(** ** fetch_secret (main.py, lines 10-35) *)

Definition fetch_secret (secret_name region_name : string) : M (option string) :=
  client ← new_client region_name;
  try_except
    (response ← call_get_secret_value client region_name secret_name;
     secret_value ← getitem_SecretString response;
     mret (Some secret_value))
    (fun e =>
       match e with
       | ClientError code text =>
           Some
             ((if String.eqb code "ResourceNotFoundException"
               then print ("ERROR: Secret '" +:+ secret_name +:+ "' not found.")
               else print ("ERROR: An error occurred while fetching secret '"
                           +:+ secret_name +:+ "': " +:+ text));;
              mret None)
       | _ => None
       end).

(** ** list_all_secrets (lines 38-57) *)

(** The loop [for page in paginator.paginate(): secrets.extend(...)]:
    [secrets] is the accumulator, a page that fails ends the loop with its
    exception. *)
Fixpoint extend_pages (region : string) (pages : list (exn + Page))
    (secrets : list SecretListEntry) : M (list SecretListEntry) :=
  match pages with
  | [] => mret secrets
  | p :: rest =>
      log (EvListSecretsPage region);;
      match p with
      | inr page => extend_pages region rest (secrets ++ SecretList page)
      | inl e => raise e
      end
  end.

Definition list_all_secrets (region_name : string) : M (list string) :=
  client ← new_client region_name;
  secrets ← extend_pages region_name (paginate_list_secrets client) [];
  let secret_names := map Name secrets in
  mret secret_names.

(** ** clear_screen (lines 60-67) *)

Definition os_system (cmd : string) : M unit := log (EvSystem cmd).

Definition clear_screen : M unit :=
  if String.eqb (os_name w) "nt" then os_system "cls" else os_system "clear".

(** ** write_to_file (lines 70-79) *)

(** open(path, "w", encoding="utf-8"): the file is created or truncated,
    or OSError is raised and nothing changes. *)
Definition open_w (path : string) : M unit := fun st =>
  let tr := st_trace st ++ [EvOpenW path] in
  if creatable w path
  then (Return tt,
        {| st_stdin := st_stdin st;
           st_files := <[path := EmptyString]> (st_files st);
           st_trace := tr |})
  else (Raise (OSError path),
        {| st_stdin := st_stdin st; st_files := st_files st; st_trace := tr |}).

(** file.write(text) on a file opened for writing: the text goes after
    what the handle has written so far. *)
Definition file_write (path text : string) : M unit := fun st =>
  (Return tt,
   {| st_stdin := st_stdin st;
      st_files := <[path := default EmptyString (st_files st !! path) +:+ text]>
                    (st_files st);
      st_trace := st_trace st ++ [EvWrite path text] |}).

Definition write_to_file (secret_value output_file : string) : M unit :=
  open_w output_file;;
  file_write output_file secret_value.

(** What the text layer stores for a text written in mode "w" with the
    default newline: every line feed becomes os.linesep, which is carriage
    return and line feed where os.name is nt and the line feed elsewhere. *)
Fixpoint line_feeds_to_crlf (text : string) : string :=
  match text with
  | EmptyString => EmptyString
  | String c rest =>
      if Ascii.eqb c "010"
      then String "013" (String "010" (line_feeds_to_crlf rest))
      else String c (line_feeds_to_crlf rest)
  end.

Definition stored_text (text : string) : string :=
  if String.eqb (os_name w) "nt" then line_feeds_to_crlf text else text.

(** What a read in text mode with the default newline makes of what is
    stored: carriage return and line feed, and a carriage return alone,
    both become a line feed. *)
Fixpoint universal_newlines (stored : string) : string :=
  match stored with
  | EmptyString => EmptyString
  | String c rest =>
      if Ascii.eqb c "013"
      then
        match rest with
        | String c' rest' =>
            if Ascii.eqb c' "010"
            then String "010" (universal_newlines rest')
            else String "010" (universal_newlines rest)
        | EmptyString => String "010" EmptyString
        end
      else String c (universal_newlines rest)
  end.

(** open(path, "r", encoding="utf-8").read(), as test_main.py reads the
    file back (lines 56-57).  [st_files] holds the text as it was written;
    the read sees it through the two translations. *)
Definition read_file (path : string) : M string := fun st =>
  match st_files st !! path with
  | Some text => (Return (universal_newlines (stored_text text)), st)
  | None => (Raise (OSError path), st)
  end.

(** ** main (lines 82-125) *)

(** json.loads(text) *)
Definition py_json_loads (text : string) : M (PyObj w) :=
  match json_loads w text with
  | inr obj => mret obj
  | inl e => raise e
  end.

(** Lines 93-96. *)
Definition resolve_region : M string :=
  region_name ← os_getenv "AWS_DEFAULT_REGION";
  if negb (truthy region_name)
  then input "Enter the Region Name: "
  else mret (default EmptyString region_name).

(** Lines 99-101; [idx] is the index enumerate() has reached. *)
Fixpoint print_entries (idx : nat) (secret_names : list string) : M unit :=
  match secret_names with
  | [] => mret tt
  | name :: rest =>
      print (pretty (idx + 1)%nat +:+ ". " +:+ name);;
      print_entries (S idx) rest
  end.

Definition print_menu (secret_names : list string) : M unit :=
  print "Available Secrets:";;
  print_entries 0 secret_names.

(** Lines 103-104. *)
Definition select_secret (secret_names : list string) : M string :=
  line ← input "Enter the number of the secret you want to fetch: ";
  n ← int line;
  let secret_idx := n - 1 in
  getitem secret_names secret_idx.

Definition header : string := nl +:+ "Fetched Secret Value:".

(** Lines 113-120. *)
Definition display (secret_value : string) : M unit :=
  try_except
    (secret_dict ← py_json_loads secret_value;
     let pretty_secret := json_dumps w secret_dict 4 in
     print header;;
     print pretty_secret)
    (fun e =>
       match e with
       | JSONDecodeError => Some (print header;; print secret_value)
       | _ => None
       end).

(** Lines 108-125. *)
Definition deliver (secret_value : option string) : M unit :=
  match secret_value with
  | Some secret_value =>
      if truthy (args_output w)
      then
        let output := default EmptyString (args_output w) in
        write_to_file secret_value output;;
        print ("Secret value fetched and stored in " +:+ output
               +:+ " successfully.")
      else
        display secret_value;;
        input (nl +:+ "Press Enter to clear the screen...");;
        clear_screen
  | None => print "Exiting program."
  end.

Definition main : M unit :=
  region_name ← resolve_region;
  secret_names ← list_all_secrets region_name;
  print_menu secret_names;;
  secret_name ← select_secret secret_names;
  secret_value ← fetch_secret secret_name region_name;
  deliver secret_value.

End Program.

(** * A sample world

    A service double in the manner of test_main.py's mocks.  Region
    us-west-2 lists five names on two pages; eu-west-1 holds none; no
    other region can be reached. *)

Module Sample.

Definition dq : string := String "034"%char EmptyString.

Definition cr : string := String "013"%char EmptyString.

(** The text of the JSON object with the single member k: v. *)
Definition kv_text : string :=
  "{" +:+ dq +:+ "k" +:+ dq +:+ ":" +:+ dq +:+ "v" +:+ dq +:+ "}".

Definition text_secret (name : string) (value : string) : GetSecretValueResponse :=
  {| resp_ARN := "arn:aws:secretsmanager:us-west-2:000000000000:secret:" +:+ name;
     resp_Name := name;
     resp_SecretString := Some value;
     resp_SecretBinary := None |}.

Definition binary_secret (name : string) (value : list Byte.byte) : GetSecretValueResponse :=
  {| resp_ARN := "arn:aws:secretsmanager:us-west-2:000000000000:secret:" +:+ name;
     resp_Name := name;
     resp_SecretString := None;
     resp_SecretBinary := Some value |}.

Definition entry (name : string) : SecretListEntry :=
  {| ARN := "arn:aws:secretsmanager:us-west-2:000000000000:secret:" +:+ name;
     Name := name |}.

Definition denied_text : string :=
  "An error occurred (AccessDeniedException) when calling the GetSecretValue operation: denied".

Definition missing_text : string :=
  "An error occurred (ResourceNotFoundException) when calling the GetSecretValue operation: gone".

Definition west_pages : list Page :=
  [ {| SecretList := [entry "alpha"; entry "gone"] |};
    {| SecretList := [entry "locked"; entry "blob"; entry "beta"] |} ].

Definition west_client : Client :=
  {| get_secret_value := fun secret_id =>
       if String.eqb secret_id "alpha" then inr (text_secret "alpha" kv_text)
       else if String.eqb secret_id "beta"
            then inr (text_secret "beta" "plain-text-secret")
       else if String.eqb secret_id "blob"
            then inr (binary_secret "blob" [Byte.x00; Byte.xff])
       else if String.eqb secret_id "locked"
            then inl (ClientError "AccessDeniedException" denied_text)
       else inl (ClientError "ResourceNotFoundException" missing_text);
     paginate_list_secrets := inr <$> west_pages |}.

Definition empty_client : Client :=
  {| get_secret_value := fun _ =>
       inl (ClientError "ResourceNotFoundException" missing_text);
     paginate_list_secrets := [ inr {| SecretList := [] |} ] |}.

(** A stand-in for the json module on dicts of str to str: it knows two
    object texts, refuses a numeral of more than 4300 digits the way
    json.loads does under the default limit, takes any other text for no
    JSON, and prints a dict the way json.dumps(obj, indent=n) lays it
    out. *)
Definition is_digit (c : ascii) : bool :=
  match digit_val c with
  | Some _ => true
  | None => false
  end.

Definition over_digit_limit (text : string) : bool :=
  forallb is_digit (String.list_ascii_of_string text)
  && (4300 <? String.length text)%nat.

Definition digit_limit_error : exn :=
  ValueError "Exceeds the limit (4300 digits) for integer string conversion".

Definition loads (text : string) : exn + list (string * string) :=
  if String.eqb text kv_text then inr [("k", "v")]
  else if String.eqb text "{}" then inr []
  else if over_digit_limit text then inl digit_limit_error
  else inl JSONDecodeError.

Fixpoint spaces (n : nat) : string :=
  match n with
  | O => EmptyString
  | S m => " " +:+ spaces m
  end.

Fixpoint members (indent : nat) (obj : list (string * string)) : string :=
  match obj with
  | [] => EmptyString
  | (k, v) :: rest =>
      nl +:+ spaces indent +:+ dq +:+ k +:+ dq +:+ ": " +:+ dq +:+ v +:+ dq
      +:+ (match rest with [] => EmptyString | _ => "," end)
      +:+ members indent rest
  end.

Definition dumps (obj : list (string * string)) (indent : nat) : string :=
  match obj with
  | [] => "{}"
  | _ => "{" +:+ members indent obj +:+ nl +:+ "}"
  end.

Definition world (region_var : option string) (output : option string) : World :=
  {| environ :=
       match region_var with
       | Some r => {[ "AWS_DEFAULT_REGION" := r ]}
       | None => ∅
       end;
     args_output := output;
     os_name := "posix";
     session_client := fun region =>
       if String.eqb region "us-west-2" then inr west_client
       else if String.eqb region "eu-west-1" then inr empty_client
       else inl (BotoCoreError "Could not connect to the endpoint URL");
     PyObj := list (string * string);
     json_loads := loads;
     json_dumps := dumps;
     creatable := fun path => negb (String.eqb path EmptyString)
                              && negb (String.eqb path "/proc/denied") |}.

(** The state of a run that starts with [lines] still to be typed and no
    file. *)
Definition typed (lines : list string) : State := init lines ∅.

End Sample.

(** ** A third sample world: a secret that is one long number

    us-west-2 lists a single name, whose value is a numeral of 4301
    digits: JSON by its grammar, and beyond the 4300 digits json.loads
    converts under the interpreter's default limit. *)

Module Limits.

Fixpoint ones (n : nat) : string :=
  match n with
  | O => EmptyString
  | S m => String "1"%char (ones m)
  end.

Definition long_number : string := ones 4301.

Definition client : Client :=
  {| get_secret_value := fun secret_id =>
       if String.eqb secret_id "digits"
       then inr (Sample.text_secret "digits" long_number)
       else inl (ClientError "ResourceNotFoundException" Sample.missing_text);
     paginate_list_secrets :=
       [ inr {| SecretList := [Sample.entry "digits"] |} ] |}.

Definition world : World :=
  {| environ := {[ "AWS_DEFAULT_REGION" := "us-west-2" ]};
     args_output := None;
     os_name := "posix";
     session_client := fun region =>
       if String.eqb region "us-west-2" then inr client
       else inl (BotoCoreError "Could not connect to the endpoint URL");
     PyObj := list (string * string);
     json_loads := Sample.loads;
     json_dumps := Sample.dumps;
     creatable := fun path => negb (String.eqb path EmptyString) |}.

End Limits.

(** * Observing a run *)

Definition add_events (evs : list event) (st : State) : State :=
  {| st_stdin := st_stdin st; st_files := st_files st;
     st_trace := st_trace st ++ evs |}.

(** The prompts and messages of main.py. *)
Definition region_prompt : string := "Enter the Region Name: ".
Definition select_prompt : string :=
  "Enter the number of the secret you want to fetch: ".
Definition press_enter_prompt : string :=
  nl +:+ "Press Enter to clear the screen...".
Definition exit_message : string := "Exiting program.".
Definition not_found_message (secret_name : string) : string :=
  "ERROR: Secret '" +:+ secret_name +:+ "' not found.".
Definition other_error_message (secret_name text : string) : string :=
  "ERROR: An error occurred while fetching secret '" +:+ secret_name
  +:+ "': " +:+ text.
Definition stored_message (path : string) : string :=
  "Secret value fetched and stored in " +:+ path +:+ " successfully.".

(** What print and input put on standard output. *)
Fixpoint stdout_text (evs : list event) : string :=
  match evs with
  | [] => EmptyString
  | EvPrint text :: rest => text +:+ nl +:+ stdout_text rest
  | EvInput prompt :: rest => prompt +:+ stdout_text rest
  | _ :: rest => stdout_text rest
  end.

(** The run up to the menu (lines 93-101) and up to the choice (lines
    93-104): the prefixes of [main] that the statements below name. *)
Definition until_menu (w : World) : M (string * list string) :=
  region_name ← resolve_region w;
  secret_names ← list_all_secrets w region_name;
  print_menu secret_names;;
  mret (region_name, secret_names).

Definition until_fetch (w : World) : M (string * string) :=
  '(region_name, secret_names) ← until_menu w;
  secret_name ← select_secret secret_names;
  mret (region_name, secret_name).

(** Events of the output sink: a file opened or written, a shell command,
    the header of the display, the wait for Enter. *)
Definition is_sink_event (ev : event) : bool :=
  match ev with
  | EvOpenW _ | EvWrite _ _ | EvSystem _ => true
  | EvPrint text => String.eqb text header
  | EvInput prompt => String.eqb prompt press_enter_prompt
  | _ => false
  end.

(** Events of the display's last two steps. *)
Definition clears_or_waits (ev : event) : bool :=
  match ev with
  | EvSystem _ => true
  | EvInput prompt => String.eqb prompt press_enter_prompt
  | _ => false
  end.

(** Every call to the service in the event is made for [region]. *)
Definition uses_region (region : string) (ev : event) : Prop :=
  match ev with
  | EvClient r | EvListSecretsPage r | EvGetSecretValue r _ => r = region
  | _ => True
  end.

(** A relation between the state before and the state after that every
    step of a computation keeps. *)
Definition respects (R : State -> State -> Prop) {A : Type} (m : M A) : Prop :=
  forall st, R st (m st).2.

Definition same_files (st st' : State) : Prop :=
  st_files st' = st_files st.

Definition emits_only (P : event -> Prop) (st st' : State) : Prop :=
  exists evs, st_trace st' = st_trace st ++ evs /\ Forall P evs.

(** [P] holds of every event the stages before the sink can emit when
    they work for [region]. *)
Definition allows_lookup (P : event -> Prop) (region : string) : Prop :=
  (forall text, text <> header -> P (EvPrint text))
  /\ P (EvInput select_prompt)
  /\ P (EvClient region)
  /\ P (EvListSecretsPage region)
  /\ forall secret_id, P (EvGetSecretValue region secret_id).

(** What [main] does once the region is known (lines 98-125). *)
Definition after_region (w : World) (region_name : string) : M unit :=
  secret_names ← list_all_secrets w region_name;
  print_menu secret_names;;
  secret_name ← select_secret secret_names;
  secret_value ← fetch_secret w secret_name region_name;
  deliver w secret_value.

(** The event is a call made for [region], or no call and not the prompt
    for the region. *)
Definition region_settled (region : string) (ev : event) : Prop :=
  uses_region region ev /\ ev <> EvInput region_prompt.

(** ** Further observations *)

(** The text holds no carriage return. *)
Definition has_no_cr (text : string) : bool :=
  forallb (fun c => negb (Ascii.eqb c "013")) (String.list_ascii_of_string text).

(** Neither the lines still to be typed nor the files have changed. *)
Definition same_input_and_files (st st' : State) : Prop :=
  st_stdin st' = st_stdin st /\ st_files st' = st_files st.

(** The file at [path] is as it was (or is absent as it was). *)
Definition same_file_at (path : string) (st st' : State) : Prop :=
  st_files st' !! path = st_files st !! path.

(** The line of the menu for the name at index [idx] (line 101), and the
    events of the whole menu (lines 99-101). *)
Definition menu_line (idx : nat) (name : string) : string :=
  pretty (idx + 1)%nat +:+ ". " +:+ name.

Definition menu_events (secret_names : list string) : list event :=
  EvPrint "Available Secrets:"
  :: imap (fun idx name => EvPrint (menu_line idx name)) secret_names.

(** What lines 113-120 show below the header for the value [V], or the
    exception they let through instead. *)
Definition display_text (w : World) (V : string) : exn + string :=
  match json_loads w V with
  | inr obj => inr (json_dumps w obj 4)
  | inl JSONDecodeError => inr V
  | inl e => inl e
  end.

(** The shell command clear_screen picks (lines 64-67). *)
Definition clear_command (w : World) : string :=
  if String.eqb (os_name w) "nt" then "cls" else "clear".

Definition is_service_call (ev : event) : bool :=
  match ev with
  | EvClient _ | EvListSecretsPage _ | EvGetSecretValue _ _ => true
  | _ => false
  end.

(** A get_secret_value call in the event is made for [region] and for one
    of [names]. *)
Definition fetches_listed (region : string) (names : list string) (ev : event)
  : Prop :=
  match ev with
  | EvGetSecretValue r n => r = region /\ n ∈ names
  | _ => True
  end.

Definition is_client_error (e : exn) : bool :=
  match e with
  | ClientError _ _ => true
  | _ => false
  end.

(** A get_secret_value call. *)
Definition is_fetch_call (ev : event) : bool :=
  match ev with
  | EvGetSecretValue _ _ => true
  | _ => false
  end.

(** ** A second sample world: a Windows console and a service in trouble

    us-west-2 answers as in [Sample]; in us-east-1 the second page of the
    listing times out and so does every get_secret_value; no other region
    can be reached. *)

Module Outage.

Definition timeout : exn :=
  BotoCoreError "Connect timeout on endpoint URL".

Definition flaky_client : Client :=
  {| get_secret_value := fun _ => inl timeout;
     paginate_list_secrets :=
       [ inr {| SecretList := [Sample.entry "alpha"; Sample.entry "gone"] |};
         inl timeout;
         inr {| SecretList := [Sample.entry "beta"] |} ] |}.

Definition world (region_var : option string) (output : option string) : World :=
  {| environ :=
       match region_var with
       | Some r => {[ "AWS_DEFAULT_REGION" := r ]}
       | None => ∅
       end;
     args_output := output;
     os_name := "nt";
     session_client := fun region =>
       if String.eqb region "us-west-2" then inr Sample.west_client
       else if String.eqb region "us-east-1" then inr flaky_client
       else inl (BotoCoreError "Could not connect to the endpoint URL");
     PyObj := list (string * string);
     json_loads := Sample.loads;
     json_dumps := Sample.dumps;
     creatable := fun _ => false |}.

End Outage.

(** * Properties *)

(** ** The state after some events *)

Lemma add_events_nil st : add_events [] st = st.
Proof. destruct st; unfold add_events; simpl. by rewrite app_nil_r. Qed.

Lemma add_events_app evs1 evs2 st :
  add_events evs2 (add_events evs1 st) = add_events (evs1 ++ evs2) st.
Proof. unfold add_events; simpl. by rewrite app_assoc. Qed.

Lemma append_empty_r (s : string) : s +:+ EmptyString = s.
Proof.
  induction s as [|c s IH]; [reflexivity|].
  change (String c (s +:+ EmptyString) = String c s). by rewrite IH.
Qed.

(** Traces that differ by the bracketing of [++] only. *)
Ltac trace_eq := repeat (rewrite <- app_assoc; simpl); reflexivity.

Lemma log_add ev st : log ev st = (Return tt, add_events [ev] st).
Proof. reflexivity. Qed.

Lemma print_add text st : print text st = (Return tt, add_events [EvPrint text] st).
Proof. reflexivity. Qed.

Lemma bind_run {A B : Type} (m : M A) (f : A -> M B) st :
  (m ≫= f) st =
  match m st with
  | (Return a, st') => f a st'
  | (Raise e, st') => (Raise e, st')
  end.
Proof. reflexivity. Qed.

Lemma bind_assoc_run {A B C : Type} (m : M A) (f : A -> M B) (g : B -> M C) st :
  ((m ≫= f) ≫= g) st = (m ≫= (fun a => f a ≫= g)) st.
Proof. rewrite !bind_run. by destruct (m st) as [[a|e] st']. Qed.

Lemma bind_return {A B : Type} (m : M A) (f : A -> M B) st a st' :
  m st = (Return a, st') -> (m ≫= f) st = f a st'.
Proof. intros H. by rewrite bind_run, H. Qed.

Lemma bind_raise {A B : Type} (m : M A) (f : A -> M B) st e st' :
  m st = (Raise e, st') -> (m ≫= f) st = (Raise e, st').
Proof. intros H. by rewrite bind_run, H. Qed.

(** ** fetch_secret *)

Lemma new_client_ok w region client st :
  session_client w region = inr client ->
  new_client w region st = (Return client, add_events [EvClient region] st).
Proof.
  intros H. unfold new_client. rewrite bind_run, log_add, H. reflexivity.
Qed.

Lemma new_client_fails w region e st :
  session_client w region = inl e ->
  new_client w region st = (Raise e, add_events [EvClient region] st).
Proof.
  intros H. unfold new_client. rewrite bind_run, log_add, H. reflexivity.
Qed.

(** The whole of fetch_secret once the client is built, by the answer of
    the service. *)
Lemma fetch_secret_run w secret_name region_name client st :
  session_client w region_name = inr client ->
  fetch_secret w secret_name region_name st =
  let st1 :=
    add_events [EvClient region_name; EvGetSecretValue region_name secret_name] st
  in
  match get_secret_value client secret_name with
  | inr response =>
      match resp_SecretString response with
      | Some v => (Return (Some v), st1)
      | None => (Raise (KeyError "SecretString"), st1)
      end
  | inl (ClientError code text) =>
      (Return None,
       add_events
         [EvPrint (if String.eqb code "ResourceNotFoundException"
                   then not_found_message secret_name
                   else other_error_message secret_name text)] st1)
  | inl e => (Raise e, st1)
  end.
Proof.
  intros Hc. unfold fetch_secret.
  rewrite (bind_return _ _ _ _ _ (new_client_ok _ _ _ _ Hc)).
  unfold try_except, call_get_secret_value.
  rewrite !bind_run, log_add, add_events_app. simpl.
  destruct (get_secret_value client secret_name) as [e|response]; simpl.
  - destruct e; try reflexivity.
    rewrite bind_run.
    destruct (String.eqb code "ResourceNotFoundException");
      rewrite print_add; reflexivity.
  - unfold getitem_SecretString.
    destruct (resp_SecretString response); reflexivity.
Qed.

(** C1. For every secret name and region whose client is built: when
    get_secret_value answers with a response that carries a SecretString,
    fetch_secret returns exactly that string; when it fails with a
    ClientError, fetch_secret returns None, whatever the error code, and
    the two kinds of failure differ only in the one message printed. *)
Theorem fetch_secret_payload_or_none w secret_name region_name client st :
  session_client w region_name = inr client ->
  let st1 :=
    add_events [EvClient region_name; EvGetSecretValue region_name secret_name] st
  in
  (forall response v,
      get_secret_value client secret_name = inr response ->
      resp_SecretString response = Some v ->
      fetch_secret w secret_name region_name st = (Return (Some v), st1))
  /\ (forall text,
      get_secret_value client secret_name
        = inl (ClientError "ResourceNotFoundException" text) ->
      fetch_secret w secret_name region_name st
        = (Return None, add_events [EvPrint (not_found_message secret_name)] st1))
  /\ (forall code text,
      get_secret_value client secret_name = inl (ClientError code text) ->
      code <> "ResourceNotFoundException" ->
      fetch_secret w secret_name region_name st
        = (Return None,
           add_events [EvPrint (other_error_message secret_name text)] st1)).
Proof.
  intros Hc st1. repeat split.
  - intros response v Hget Hv.
    rewrite (fetch_secret_run _ _ _ _ _ Hc), Hget, Hv. reflexivity.
  - intros text Hget.
    rewrite (fetch_secret_run _ _ _ _ _ Hc), Hget. reflexivity.
  - intros code text Hget Hcode.
    rewrite (fetch_secret_run _ _ _ _ _ Hc), Hget.
    apply String.eqb_neq in Hcode. rewrite Hcode. reflexivity.
Qed.

(** C10. When get_secret_value succeeds with a response that has no
    SecretString, fetch_secret raises KeyError on the missing key: it does
    not return None, nothing is printed, and a caller that goes on with the
    value is never reached. *)
Theorem fetch_secret_missing_string_raises
    w secret_name region_name client response st :
  session_client w region_name = inr client ->
  get_secret_value client secret_name = inr response ->
  resp_SecretString response = None ->
  let st1 :=
    add_events [EvClient region_name; EvGetSecretValue region_name secret_name] st
  in
  fetch_secret w secret_name region_name st = (Raise (KeyError "SecretString"), st1)
  /\ (fetch_secret w secret_name region_name st).1 <> Return None
  /\ (fetch_secret w secret_name region_name ≫= deliver w) st
     = (Raise (KeyError "SecretString"), st1).
Proof.
  intros Hc Hget Hv st1.
  assert (Hrun : fetch_secret w secret_name region_name st
                 = (Raise (KeyError "SecretString"), st1)).
  { rewrite (fetch_secret_run _ _ _ _ _ Hc), Hget, Hv. reflexivity. }
  split; [exact Hrun|]. split.
  - rewrite Hrun. discriminate.
  - apply bind_raise, Hrun.
Qed.

(** ** list_all_secrets *)

(** The loop over pages that all arrive: the accumulator grows by each
    page's entries, in page order. *)
Lemma extend_pages_all_arrive region pages : forall secrets st,
  extend_pages region (inr <$> pages) secrets st =
  (Return (secrets ++ concat (map SecretList pages)),
   add_events (replicate (length pages) (EvListSecretsPage region)) st).
Proof.
  induction pages as [|page pages IH]; intros secrets st; simpl.
  - rewrite app_nil_r, add_events_nil. reflexivity.
  - rewrite bind_run, log_add, IH, add_events_app, app_assoc. reflexivity.
Qed.

(** A page that fails ends the loop with its exception, whatever was
    gathered before. *)
Lemma extend_pages_failure region pages e later : forall secrets st,
  extend_pages region ((inr <$> pages) ++ inl e :: later) secrets st =
  (Raise e,
   add_events (replicate (S (length pages)) (EvListSecretsPage region)) st).
Proof.
  induction pages as [|page pages IH]; intros secrets st; simpl.
  - rewrite bind_run, log_add. reflexivity.
  - rewrite bind_run, log_add, IH, add_events_app. reflexivity.
Qed.

(** list_all_secrets when every page arrives. *)
Lemma list_all_secrets_delivered w region_name client pages st :
  session_client w region_name = inr client ->
  paginate_list_secrets client = inr <$> pages ->
  list_all_secrets w region_name st =
  (Return (concat (map (fun page => map Name (SecretList page)) pages)),
   add_events
     (EvClient region_name
        :: replicate (length pages) (EvListSecretsPage region_name)) st).
Proof.
  intros Hc Hp. unfold list_all_secrets.
  rewrite (bind_return _ _ _ _ _ (new_client_ok _ _ _ _ Hc)).
  rewrite Hp, bind_run, extend_pages_all_arrive, add_events_app. simpl.
  rewrite concat_map, map_map. reflexivity.
Qed.

(** C6. When the paginator delivers the pages [pages], list_all_secrets
    returns the names of their entries, page after page and entry after
    entry: the concatenation.  Nothing is filtered, reordered, merged,
    dropped or repeated: the list is as long as the pages together, and its
    k-th name is the name of the k-th entry of the pages laid end to end. *)
Theorem list_all_secrets_concat w region_name client pages st :
  session_client w region_name = inr client ->
  paginate_list_secrets client = inr <$> pages ->
  let names := concat (map (fun page => map Name (SecretList page)) pages) in
  (list_all_secrets w region_name st).1 = Return names
  /\ length names = length (concat (map SecretList pages))
  /\ forall k, names !! k = Name <$> concat (map SecretList pages) !! k.
Proof.
  intros Hc Hp names. subst names.
  rewrite (list_all_secrets_delivered w region_name client pages st Hc Hp).
  split; [reflexivity|].
  assert (Hmap : concat (map (fun page => map Name (SecretList page)) pages)
                 = map Name (concat (map SecretList pages))).
  { by rewrite concat_map, map_map. }
  rewrite Hmap. split.
  - apply length_map.
  - intros k. apply list_lookup_fmap.
Qed.

(** ** write_to_file *)

Lemma universal_newlines_no_cr (text : string) :
  has_no_cr text = true -> universal_newlines text = text.
Proof.
  induction text as [|c rest IH]; [reflexivity|]. simpl.
  intros H. apply andb_true_iff in H as [Hc Hrest].
  apply negb_true_iff in Hc. rewrite Hc. by rewrite (IH Hrest).
Qed.

Lemma universal_newlines_crlf (text : string) :
  has_no_cr text = true -> universal_newlines (line_feeds_to_crlf text) = text.
Proof.
  induction text as [|c rest IH]; [reflexivity|]. simpl.
  intros H. apply andb_true_iff in H as [Hc Hrest].
  apply negb_true_iff in Hc.
  destruct (Ascii.eqb c "010") eqn:Hlf.
  - apply Ascii.eqb_eq in Hlf as ->. simpl. by rewrite (IH Hrest).
  - simpl. rewrite Hc. by rewrite (IH Hrest).
Qed.

(** A text without carriage return is read back as it was written, on
    either kind of platform. *)
Lemma read_back_no_cr w (text : string) :
  has_no_cr text = true -> universal_newlines (stored_text w text) = text.
Proof.
  intros H. unfold stored_text.
  destruct (String.eqb (os_name w) "nt").
  - by apply universal_newlines_crlf.
  - by apply universal_newlines_no_cr.
Qed.

Lemma write_to_file_run w V path st :
  creatable w path = true ->
  write_to_file w V path st =
  (Return tt,
   {| st_stdin := st_stdin st;
      st_files := <[path := V]> (st_files st);
      st_trace := st_trace st ++ [EvOpenW path; EvWrite path V] |}).
Proof.
  intros Hc. unfold write_to_file, open_w, file_write.
  rewrite bind_run, Hc. simpl.
  rewrite lookup_insert_eq, insert_insert_eq. simpl.
  by rewrite <- app_assoc.
Qed.

(** C4, as the code has it.  For every path that open(path, "w") can
    create, write_to_file returns and the text written to the file is
    exactly [V] (nothing before it, nothing after it, whatever the file
    held), no other file changes.  Reading the file back in text mode gives
    [V] through the translation of line ends, and so gives exactly [V]
    whenever [V] holds no carriage return. *)
Theorem write_to_file_read_back w V path st :
  creatable w path = true ->
  let st' := (write_to_file w V path st).2 in
  (write_to_file w V path st).1 = Return tt
  /\ st_files st' = <[path := V]> (st_files st)
  /\ read_file w path st' = (Return (universal_newlines (stored_text w V)), st')
  /\ (has_no_cr V = true -> read_file w path st' = (Return V, st')).
Proof.
  intros Hc st'. subst st'. rewrite (write_to_file_run w V path st Hc).
  unfold read_file. cbn [fst snd st_files]. rewrite lookup_insert_eq.
  split; [done|]. split; [done|]. split; [done|].
  intros Hcr. by rewrite (read_back_no_cr w V Hcr).
Qed.

(** ** What a computation keeps *)

#[global] Instance same_files_preorder : PreOrder same_files.
Proof.
  split.
  - intros st. reflexivity.
  - intros st1 st2 st3 H12 H23. unfold same_files in *. congruence.
Qed.

#[global] Instance emits_only_preorder P : PreOrder (emits_only P).
Proof.
  split.
  - intros st. exists []. by rewrite app_nil_r.
  - intros st1 st2 st3 (evs1 & H1 & HP1) (evs2 & H2 & HP2).
    exists (evs1 ++ evs2). split.
    + by rewrite H2, H1, app_assoc.
    + by apply Forall_app.
Qed.

Section Respects.

Context (R : State -> State -> Prop) `{!PreOrder R}.

Lemma respects_ret {A : Type} (a : A) : respects R (mret a : M A).
Proof. intros st. simpl. reflexivity. Qed.

Lemma respects_raise {A : Type} e : respects R (raise e : M A).
Proof. intros st. simpl. reflexivity. Qed.

Lemma respects_bind {A B : Type} (m : M A) (f : A -> M B) :
  respects R m -> (forall a, respects R (f a)) -> respects R (m ≫= f).
Proof.
  intros Hm Hf st. rewrite bind_run. specialize (Hm st).
  destruct (m st) as [[a|e] st1]; simpl in *.
  - etrans; [exact Hm | apply Hf].
  - exact Hm.
Qed.

Lemma respects_try_except {A : Type} (body : M A) handler :
  respects R body ->
  (forall e h, handler e = Some h -> respects R h) ->
  respects R (try_except body handler).
Proof.
  intros Hb Hh st. unfold try_except. specialize (Hb st).
  destruct (body st) as [[a|e] st1]; simpl in *; [exact Hb|].
  destruct (handler e) as [h|] eqn:He; simpl; [|exact Hb].
  etrans; [exact Hb | exact (Hh e h He st1)].
Qed.

Lemma respects_result {A : Type} (m : M A) st r st' :
  respects R m -> m st = (r, st') -> R st st'.
Proof. intros Hm Hrun. specialize (Hm st). by rewrite Hrun in Hm. Qed.

End Respects.

Lemma same_files_log ev : respects same_files (log ev).
Proof. intros st. reflexivity. Qed.

Lemma same_files_input prompt : respects same_files (input prompt).
Proof. intros st. unfold input. by destruct (st_stdin st). Qed.

Lemma emits_log (P : event -> Prop) ev : P ev -> respects (emits_only P) (log ev).
Proof. intros HP st. exists [ev]. split; [reflexivity | by constructor]. Qed.

Lemma emits_input (P : event -> Prop) prompt :
  P (EvInput prompt) -> respects (emits_only P) (input prompt).
Proof.
  intros HP st. exists [EvInput prompt]. unfold input.
  destruct (st_stdin st); (split; [reflexivity | by constructor]).
Qed.

Lemma emits_open_w (P : event -> Prop) w path :
  P (EvOpenW path) -> respects (emits_only P) (open_w w path).
Proof.
  intros HP st. exists [EvOpenW path]. unfold open_w.
  destruct (creatable w path); (split; [reflexivity | by constructor]).
Qed.

Lemma emits_file_write (P : event -> Prop) path text :
  P (EvWrite path text) -> respects (emits_only P) (file_write path text).
Proof. intros HP st. exists [EvWrite path text]. split; [reflexivity | by constructor]. Qed.

(** One step of a proof that a straight-line computation respects a
    relation; what is left are the facts about single events. *)
Ltac respects_step :=
  first
    [ apply respects_ret; solve [apply _]
    | apply respects_raise; solve [apply _]
    | apply respects_bind; [solve [apply _] | | intros ?]
    | apply respects_try_except; [solve [apply _] | | intros [] ? [= <-]]
    | apply same_files_log
    | apply same_files_input
    | apply emits_log
    | apply emits_input
    | apply emits_open_w
    | apply emits_file_write
    | match goal with
      | |- respects _ (match ?x with _ => _ end) => destruct x
      end ].

Ltac respects_auto := repeat respects_step.

(** The loops. *)
Lemma extend_pages_respects R `{!PreOrder R} region :
  respects R (log (EvListSecretsPage region)) ->
  forall pages secrets, respects R (extend_pages region pages secrets).
Proof.
  intros Hlog. induction pages as [|[e|page] pages IH]; intros secrets; simpl.
  - by apply respects_ret.
  - apply respects_bind; [done | done | intros _]. by apply respects_raise.
  - apply respects_bind; [done | done | intros _]. apply IH.
Qed.

Lemma print_entries_respects R `{!PreOrder R} :
  (forall idx name,
      respects R (print (pretty (idx + 1)%nat +:+ ". " +:+ name))) ->
  forall secret_names idx, respects R (print_entries idx secret_names).
Proof.
  intros Hp. induction secret_names as [|name rest IH]; intros idx; simpl.
  - by apply respects_ret.
  - apply respects_bind; [done | apply Hp | intros _; apply IH].
Qed.

(** ** The stages before the output sink *)

(** A menu line starts with a digit of its number, never with a line
    break, so it is not the header of the display. *)
Lemma pretty_N_go_head x : forall s,
  (forall s', s <> String "010"%char s') ->
  forall s', pretty_N_go x s <> String "010"%char s'.
Proof.
  induction (N.lt_wf_0 x) as [x _ IH]; intros s Hs s'.
  destruct (decide (x = 0%N)) as [->|Hx].
  - rewrite pretty_N_go_0. apply Hs.
  - rewrite pretty_N_go_step by lia. apply IH.
    + apply N.div_lt; lia.
    + intros s''. unfold pretty_N_char. by repeat case_match.
Qed.

Lemma menu_line_not_header idx name :
  pretty (idx + 1)%nat +:+ ". " +:+ name <> header.
Proof.
  unfold pretty, pretty_nat, pretty, pretty_N.
  destruct (decide (N.of_nat (idx + 1) = 0%N)) as [H0|_]; [lia|].
  destruct (pretty_N_go (N.of_nat (idx + 1)) EmptyString) as [|c s] eqn:Hgo.
  - discriminate.
  - intros Heq. injection Heq as Hc _. subst c.
    by eapply (pretty_N_go_head _ EmptyString).
Qed.

Lemma allows_lookup_not_sink region :
  allows_lookup (fun ev => is_sink_event ev = false) region.
Proof.
  repeat split; try reflexivity.
  intros text Hne. simpl. by apply String.eqb_neq.
Qed.

Lemma allows_lookup_not_clearing region :
  allows_lookup (fun ev => clears_or_waits ev = false) region.
Proof. repeat split; reflexivity. Qed.

Lemma allows_lookup_uses_region region :
  allows_lookup (uses_region region) region.
Proof. repeat split. Qed.

Section Stages.

Context (w : World) (P : event -> Prop) (region : string).
Context (HP : allows_lookup P region).

Lemma new_client_emits : respects (emits_only P) (new_client w region).
Proof.
  destruct HP as (_ & _ & Hc & _). unfold new_client.
  respects_auto. exact Hc.
Qed.

Lemma list_all_secrets_emits : respects (emits_only P) (list_all_secrets w region).
Proof.
  unfold list_all_secrets.
  apply respects_bind; [apply _ | apply new_client_emits | intros client].
  apply respects_bind; [apply _ | | intros secrets; respects_step].
  apply extend_pages_respects; [apply _|].
  apply emits_log. apply HP.
Qed.

Lemma print_menu_emits secret_names : respects (emits_only P) (print_menu secret_names).
Proof.
  destruct HP as (Hprint & _). unfold print_menu.
  apply respects_bind; [apply _ | | intros _].
  - apply emits_log, Hprint. discriminate.
  - apply print_entries_respects; [apply _|]. intros idx name.
    apply emits_log, Hprint, menu_line_not_header.
Qed.

Lemma select_secret_emits secret_names :
  respects (emits_only P) (select_secret secret_names).
Proof.
  destruct HP as (_ & Hsel & _). unfold select_secret, int, getitem.
  respects_auto. exact Hsel.
Qed.

Lemma fetch_secret_emits secret_name :
  respects (emits_only P) (fetch_secret w secret_name region).
Proof.
  destruct HP as (Hprint & _ & _ & _ & Hget). unfold fetch_secret.
  apply respects_bind; [apply _ | apply new_client_emits | intros client].
  unfold call_get_secret_value, getitem_SecretString, print.
  respects_auto; try apply Hget; apply Hprint; discriminate.
Qed.

End Stages.

Lemma resolve_region_emits w (P : event -> Prop) :
  P (EvInput region_prompt) -> respects (emits_only P) (resolve_region w).
Proof. intros HP. unfold resolve_region, os_getenv. respects_auto. exact HP. Qed.

Lemma until_fetch_emits w (P : event -> Prop) :
  P (EvInput region_prompt) ->
  (forall region, allows_lookup P region) ->
  respects (emits_only P) (until_fetch w).
Proof.
  intros Hprompt HP. unfold until_fetch, until_menu.
  apply respects_bind; [apply _ | | intros [region names]].
  - apply respects_bind; [apply _ | | intros region].
    { by apply resolve_region_emits. }
    apply respects_bind;
      [apply _ | by apply list_all_secrets_emits | intros names].
    apply respects_bind;
      [apply _ | by apply (print_menu_emits P region) | intros _].
    respects_step.
  - apply respects_bind;
      [apply _ | by apply (select_secret_emits P region) | intros name].
    respects_step.
Qed.

(** No stage before the sink touches a file. *)
Lemma new_client_same_files w region : respects same_files (new_client w region).
Proof. unfold new_client. respects_auto. Qed.

Lemma list_all_secrets_same_files w region :
  respects same_files (list_all_secrets w region).
Proof.
  unfold list_all_secrets.
  apply respects_bind; [apply _ | apply new_client_same_files | intros client].
  apply respects_bind; [apply _ | | intros secrets; respects_step].
  apply extend_pages_respects; [apply _ | apply same_files_log].
Qed.

Lemma fetch_secret_same_files w secret_name region :
  respects same_files (fetch_secret w secret_name region).
Proof.
  unfold fetch_secret.
  apply respects_bind; [apply _ | apply new_client_same_files | intros client].
  unfold call_get_secret_value, getitem_SecretString, print. respects_auto.
Qed.

Lemma until_fetch_same_files w : respects same_files (until_fetch w).
Proof.
  unfold until_fetch, until_menu.
  apply respects_bind; [apply _ | | intros [region names]].
  - apply respects_bind; [apply _ | | intros region].
    { unfold resolve_region, os_getenv. respects_auto. }
    apply respects_bind;
      [apply _ | apply list_all_secrets_same_files | intros names].
    apply respects_bind; [apply _ | | intros _; respects_step].
    unfold print_menu, print.
    apply respects_bind; [apply _ | apply same_files_log | intros _].
    apply print_entries_respects; [apply _|]. intros; apply same_files_log.
  - unfold select_secret, int, getitem. respects_auto.
Qed.

(** ** main, cut at the fetch and at the menu *)

Lemma main_until_fetch w st :
  main w st =
  ('(region_name, secret_name) ← until_fetch w;
   secret_value ← fetch_secret w secret_name region_name;
   deliver w secret_value) st.
Proof.
  unfold main, until_fetch, until_menu. rewrite !bind_run.
  destruct (resolve_region w st) as [[region|e] st1]; [|done].
  rewrite !bind_run.
  destruct (list_all_secrets w region st1) as [[names|e] st2]; [|done].
  rewrite !bind_run.
  destruct (print_menu names st2) as [[[]|e] st3]; [|done]. simpl.
  rewrite !bind_run.
  destruct (select_secret names st3) as [[name|e] st4]; done.
Qed.

Lemma main_until_menu w st :
  main w st =
  ('(region_name, secret_names) ← until_menu w;
   secret_name ← select_secret secret_names;
   secret_value ← fetch_secret w secret_name region_name;
   deliver w secret_value) st.
Proof.
  unfold main, until_menu. rewrite !bind_run.
  destruct (resolve_region w st) as [[region|e] st1]; [|done].
  rewrite !bind_run.
  destruct (list_all_secrets w region st1) as [[names|e] st2]; [|done].
  rewrite !bind_run.
  destruct (print_menu names st2) as [[[]|e] st3]; done.
Qed.

(** ** The output sink *)

(** C2. In every run whose fetch stage returns None, main prints
    "Exiting program." as its last act and returns; the files are those the
    run started with, and the run has emitted no event of the output sink:
    no file opened or written, no shell command, no header of the display,
    no wait for Enter. *)
Theorem fetch_none_exits w st region name st3 st4 :
  until_fetch w st = (Return (region, name), st3) ->
  fetch_secret w name region st3 = (Return None, st4) ->
  main w st = (Return tt, add_events [EvPrint exit_message] st4)
  /\ st_files (main w st).2 = st_files st
  /\ emits_only (fun ev => is_sink_event ev = false) st (main w st).2.
Proof.
  intros Hu Hf.
  assert (Hmain : main w st = (Return tt, add_events [EvPrint exit_message] st4)).
  { rewrite main_until_fetch, (bind_return _ _ _ _ _ Hu).
    simpl. rewrite (bind_return _ _ _ _ _ Hf). reflexivity. }
  split; [exact Hmain|]. rewrite Hmain. simpl. split.
  - pose proof (respects_result _ _ _ _ _ (until_fetch_same_files w) Hu) as H1.
    pose proof (respects_result _ _ _ _ _
                  (fetch_secret_same_files w name region) Hf) as H2.
    unfold same_files in *. congruence.
  - etrans.
    { eapply (respects_result _ _ _ _ _ (until_fetch_emits w _ eq_refl
                allows_lookup_not_sink) Hu). }
    etrans.
    { eapply (respects_result _ _ _ _ _
                (fetch_secret_emits w _ region
                   (allows_lookup_not_sink region) name) Hf). }
    exists [EvPrint exit_message]. split; [reflexivity|].
    by constructor.
Qed.

(** The display proper (lines 113-120): the header, then the value, laid
    out again when it parses and as it is when json.loads raises
    JSONDecodeError; any other exception of json.loads goes on, before
    anything is printed. *)
Lemma display_run w V st :
  display w V st =
  match json_loads w V with
  | inr obj =>
      (Return tt, add_events [EvPrint header; EvPrint (json_dumps w obj 4)] st)
  | inl JSONDecodeError =>
      (Return tt, add_events [EvPrint header; EvPrint V] st)
  | inl e => (Raise e, st)
  end.
Proof.
  unfold display, try_except, py_json_loads. rewrite bind_run.
  destruct (json_loads w V) as [e|obj]; simpl.
  - destruct e; try reflexivity.
    rewrite bind_run, !print_add, add_events_app. reflexivity.
  - unfold add_events. simpl. by rewrite <- app_assoc.
Qed.

(** The rest of the display branch (lines 122-123) after two prints. *)
Lemma display_branch_shown w st region name st3 V st4 body :
  truthy (args_output w) = false ->
  until_fetch w st = (Return (region, name), st3) ->
  fetch_secret w name region st3 = (Return (Some V), st4) ->
  display w V st4
  = (Return tt, add_events [EvPrint header; EvPrint body] st4) ->
  main w st =
  match st_stdin st4 with
  | [] =>
      (Raise EOFError,
       {| st_stdin := []; st_files := st_files st4;
          st_trace := st_trace st4
                      ++ [EvPrint header; EvPrint body;
                          EvInput press_enter_prompt] |})
  | _ :: rest =>
      (Return tt,
       {| st_stdin := rest; st_files := st_files st4;
          st_trace := st_trace st4
                      ++ [EvPrint header; EvPrint body;
                          EvInput press_enter_prompt;
                          EvSystem (clear_command w)] |})
  end.
Proof.
  intros Hmode Hu Hf Hd.
  rewrite main_until_fetch, (bind_return _ _ _ _ _ Hu). simpl.
  rewrite (bind_return _ _ _ _ _ Hf).
  unfold deliver. rewrite Hmode.
  rewrite bind_run, Hd, bind_run.
  unfold input at 1. simpl.
  destruct (st_stdin st4) as [|line rest]; simpl.
  - f_equal. f_equal. trace_eq.
  - unfold clear_screen, os_system, clear_command.
    destruct (String.eqb (os_name w) "nt"); unfold log; simpl;
      f_equal; f_equal; trace_eq.
Qed.

(** C3, as the code has it.  In display mode, once the fetch has returned
    [V], main prints the header and then one more text:
    json.dumps(json.loads(V), indent=4) when json.loads returns, [V] itself
    when json.loads raises JSONDecodeError; the wait for Enter follows.  On
    standard output the header is the line "Fetched Secret Value:" after an
    empty line, and the text comes right below it. *)
Theorem display_mode_output w st region name st3 V st4 :
  truthy (args_output w) = false ->
  until_fetch w st = (Return (region, name), st3) ->
  fetch_secret w name region st3 = (Return (Some V), st4) ->
  (forall obj, json_loads w V = inr obj ->
     exists rest,
       st_trace (main w st).2
       = st_trace st4
         ++ EvPrint header :: EvPrint (json_dumps w obj 4)
            :: EvInput press_enter_prompt :: rest)
  /\ (json_loads w V = inl JSONDecodeError ->
     exists rest,
       st_trace (main w st).2
       = st_trace st4
         ++ EvPrint header :: EvPrint V :: EvInput press_enter_prompt :: rest)
  /\ (forall body,
       stdout_text [EvPrint header; EvPrint body]
       = nl +:+ "Fetched Secret Value:" +:+ nl +:+ body +:+ nl).
Proof.
  intros Hmode Hu Hf.
  assert (Hshown : forall body,
    display w V st4
    = (Return tt, add_events [EvPrint header; EvPrint body] st4) ->
    exists rest,
      st_trace (main w st).2
      = st_trace st4
        ++ EvPrint header :: EvPrint body :: EvInput press_enter_prompt :: rest).
  { intros body Hd.
    rewrite (display_branch_shown w st region name st3 V st4 body Hmode Hu Hf Hd).
    destruct (st_stdin st4); simpl; eexists; reflexivity. }
  split; [|split].
  - intros obj Hobj. apply Hshown. by rewrite display_run, Hobj.
  - intros Hnone. apply Hshown. by rewrite display_run, Hnone.
  - intros body. unfold stdout_text, header.
    rewrite append_empty_r. reflexivity.
Qed.

(** ** Region resolution *)

Lemma main_after_region w : main w = resolve_region w ≫= after_region w.
Proof. reflexivity. Qed.

Lemma allows_lookup_region_settled region :
  allows_lookup (region_settled region) region.
Proof. repeat split; discriminate. Qed.

Lemma deliver_region_settled w region v :
  respects (emits_only (region_settled region)) (deliver w v).
Proof.
  unfold deliver, write_to_file, display, py_json_loads, clear_screen,
    os_system, print.
  respects_auto; by split.
Qed.

(** Once the region is [region], the first thing the rest of the run does
    is build a client for it, and it never calls the service for another
    region nor asks for the region. *)
Lemma after_region_events w region st :
  exists evs,
    st_trace (after_region w region st).2 = st_trace st ++ EvClient region :: evs
    /\ Forall (region_settled region) evs.
Proof.
  pose proof (allows_lookup_region_settled region) as HP.
  set (P := region_settled region) in *.
  assert (Htail : forall client,
    respects (emits_only P)
      ((secrets ← extend_pages region (paginate_list_secrets client) [];
        mret (map Name secrets))
       ≫= (fun secret_names =>
             print_menu secret_names;;
             secret_name ← select_secret secret_names;
             secret_value ← fetch_secret w secret_name region;
             deliver w secret_value))).
  { intros client.
    apply respects_bind; [apply _ | | intros names].
    { apply respects_bind; [apply _ | | intros secrets; respects_step].
      apply extend_pages_respects; [apply _|]. apply emits_log, HP. }
    apply respects_bind;
      [apply _ | apply (print_menu_emits P region HP) | intros _].
    apply respects_bind;
      [apply _ | apply (select_secret_emits P region HP) | intros name].
    apply respects_bind;
      [apply _ | apply (fetch_secret_emits w P region HP) | intros v].
    apply deliver_region_settled. }
  unfold after_region, list_all_secrets, new_client.
  rewrite !bind_assoc_run, bind_run, log_add.
  destruct (session_client w region) as [e|client].
  - exists []. split; [reflexivity | constructor].
  - destruct (Htail client (add_events [EvClient region] st))
      as (evs & Hevs & HF).
    exists evs. split; [|exact HF].
    simpl in Hevs. rewrite <- app_assoc in Hevs. exact Hevs.
Qed.

(** C5. When AWS_DEFAULT_REGION is set to a non-empty string, the run
    starts by building the client for that very string, every call to the
    service is made for it, and the prompt for the region never appears.
    When the variable is unset or empty, the run starts with the prompt,
    and the line typed there, empty or not, is the region of the client
    built next and of every call to the service in the run, the listing
    and the fetch alike. *)
Theorem region_precedence w st :
  (forall r,
      environ w !! "AWS_DEFAULT_REGION" = Some r -> r <> EmptyString ->
      exists evs,
        st_trace (main w st).2 = st_trace st ++ EvClient r :: evs
        /\ Forall (uses_region r) evs
        /\ EvInput region_prompt ∉ EvClient r :: evs)
  /\ (forall line rest,
      environ w !! "AWS_DEFAULT_REGION" = None
      \/ environ w !! "AWS_DEFAULT_REGION" = Some EmptyString ->
      st_stdin st = line :: rest ->
      exists evs,
        st_trace (main w st).2
        = st_trace st ++ EvInput region_prompt :: EvClient line :: evs
        /\ Forall (uses_region line) evs).
Proof.
  split.
  - intros r Henv Hne.
    assert (Hres : resolve_region w st = (Return r, st)).
    { unfold resolve_region, os_getenv. rewrite bind_run. simpl.
      rewrite Henv. simpl.
      apply String.eqb_neq in Hne. rewrite Hne. reflexivity. }
    rewrite main_after_region, (bind_return _ _ _ _ _ Hres).
    destruct (after_region_events w r st) as (evs & Hevs & HF).
    exists evs. split; [exact Hevs|]. split.
    + eapply Forall_impl; [exact HF|]. by intros ev [? _].
    + intros Hin. apply elem_of_cons in Hin as [Heq|Hin]; [discriminate|].
      rewrite Forall_forall in HF. by destruct (HF _ Hin) as [_ Hno].
  - intros line rest Henv Hin.
    assert (Hres : resolve_region w st
                   = (Return line,
                      {| st_stdin := rest; st_files := st_files st;
                         st_trace := st_trace st ++ [EvInput region_prompt] |})).
    { unfold resolve_region, os_getenv. rewrite bind_run. simpl.
      assert (Hfalse : truthy (environ w !! "AWS_DEFAULT_REGION") = false)
        by (destruct Henv as [-> | ->]; reflexivity).
      rewrite Hfalse. simpl. unfold input. rewrite Hin. reflexivity. }
    rewrite main_after_region, (bind_return _ _ _ _ _ Hres).
    match goal with
    | |- context [after_region w line ?s] =>
        destruct (after_region_events w line s) as (evs & Hevs & HF)
    end.
    exists evs. split.
    + rewrite Hevs. simpl. by rewrite <- app_assoc.
    + eapply Forall_impl; [exact HF|]. by intros ev [? _].
Qed.

(** ** Write mode *)

Lemma deliver_write_mode_quiet w v :
  truthy (args_output w) = true ->
  respects (emits_only (fun ev => clears_or_waits ev = false)) (deliver w v).
Proof.
  intros Hmode. unfold deliver. rewrite Hmode.
  unfold write_to_file, print. respects_auto; reflexivity.
Qed.

(** C9. When --output carries a non-empty path, no run clears the
    terminal or waits for Enter, whatever else happens in it.  When
    moreover the fetch returns [V] and the path can be created, main
    returns after it has opened the file, written [V] to it as its whole
    contents, and printed the confirmation that names the path, and that is
    all it does after the fetch. *)
Theorem write_mode_never_clears w path st :
  args_output w = Some path ->
  path <> EmptyString ->
  emits_only (fun ev => clears_or_waits ev = false) st (main w st).2
  /\ (forall region name st3 V st4,
        until_fetch w st = (Return (region, name), st3) ->
        fetch_secret w name region st3 = (Return (Some V), st4) ->
        creatable w path = true ->
        main w st =
        (Return tt,
         {| st_stdin := st_stdin st4;
            st_files := <[path := V]> (st_files st4);
            st_trace := st_trace st4
                        ++ [EvOpenW path; EvWrite path V;
                            EvPrint (stored_message path)] |})).
Proof.
  intros Hout Hne.
  assert (Hmode : truthy (args_output w) = true).
  { rewrite Hout. simpl. apply String.eqb_neq in Hne. by rewrite Hne. }
  split.
  - rewrite main_until_fetch.
    apply respects_bind; [apply _ | | intros [region name]].
    { apply until_fetch_emits; [reflexivity|].
      apply allows_lookup_not_clearing. }
    apply respects_bind; [apply _ | | intros v].
    { apply fetch_secret_emits, allows_lookup_not_clearing. }
    by apply deliver_write_mode_quiet.
  - intros region name st3 V st4 Hu Hf Hc.
    rewrite main_until_fetch, (bind_return _ _ _ _ _ Hu). simpl.
    rewrite (bind_return _ _ _ _ _ Hf).
    unfold deliver. rewrite Hmode, Hout. simpl.
    unfold write_to_file, open_w, file_write.
    rewrite !bind_run, Hc. simpl.
    rewrite lookup_insert_eq, insert_insert_eq. simpl.
    rewrite print_add. unfold add_events. simpl.
    by rewrite <- !app_assoc.
Qed.

(** ** The selection *)

Lemma list_index_out_of_range {A : Type} (l : list A) (i : Z) :
  Z.of_nat (length l) <= i \/ i < - Z.of_nat (length l) ->
  list_index l i = None.
Proof.
  intros Hi. unfold list_index.
  destruct (i <? 0) eqn:Hneg.
  - apply Z.ltb_lt in Hneg.
    destruct (0 <=? i + Z.of_nat (length l)) eqn:H0; [|reflexivity].
    apply Z.leb_le in H0. lia.
  - apply Z.ltb_ge in Hneg.
    destruct (i <? Z.of_nat (length l)) eqn:H1.
    + apply Z.ltb_lt in H1. lia.
    + by rewrite andb_false_r.
Qed.

Lemma list_index_empty {A : Type} (i : Z) : list_index (@nil A) i = None.
Proof. apply list_index_out_of_range. simpl. lia. Qed.

Lemma list_index_in_range {A : Type} (l : list A) (i : Z) :
  0 <= i < Z.of_nat (length l) ->
  list_index l i = l !! Z.to_nat i /\ is_Some (l !! Z.to_nat i).
Proof.
  intros Hi. unfold list_index.
  assert ((i <? 0) = false) as -> by (apply Z.ltb_ge; lia).
  assert ((0 <=? i) = true) as -> by (apply Z.leb_le; lia).
  assert ((i <? Z.of_nat (length l)) = true) as -> by (apply Z.ltb_lt; lia).
  split; [reflexivity|]. apply lookup_lt_is_Some. lia.
Qed.

(** A negative index no smaller than minus the length counts from the end. *)
Lemma list_index_from_end {A : Type} (l : list A) (i : Z) :
  - Z.of_nat (length l) <= i < 0 ->
  list_index l i = l !! Z.to_nat (i + Z.of_nat (length l))
  /\ is_Some (l !! Z.to_nat (i + Z.of_nat (length l))).
Proof.
  intros Hi. unfold list_index.
  assert ((i <? 0) = true) as -> by (apply Z.ltb_lt; lia).
  assert ((0 <=? i + Z.of_nat (length l)) = true) as -> by (apply Z.leb_le; lia).
  assert ((i + Z.of_nat (length l) <? Z.of_nat (length l)) = true) as ->
    by (apply Z.ltb_lt; lia).
  split; [reflexivity|]. apply lookup_lt_is_Some. lia.
Qed.

(** Lines 103-104 on the next line typed. *)
Lemma select_secret_run secret_names line rest st :
  st_stdin st = line :: rest ->
  select_secret secret_names st =
  let st' := {| st_stdin := rest; st_files := st_files st;
                st_trace := st_trace st ++ [EvInput select_prompt] |} in
  match parse_int line with
  | None => (Raise (ValueError line), st')
  | Some n =>
      match list_index secret_names (n - 1) with
      | Some name => (Return name, st')
      | None => (Raise IndexError, st')
      end
  end.
Proof.
  intros Hin. unfold select_secret, int, getitem.
  rewrite bind_run. unfold input at 1. rewrite Hin. simpl.
  rewrite bind_run.
  destruct (parse_int line) as [n|]; simpl; [|reflexivity].
  by destruct (list_index secret_names (n - 1)).
Qed.

Lemma select_secret_eof secret_names st :
  st_stdin st = [] ->
  select_secret secret_names st =
  (Raise EOFError,
   {| st_stdin := []; st_files := st_files st;
      st_trace := st_trace st ++ [EvInput select_prompt] |}).
Proof.
  intros Hin. unfold select_secret.
  rewrite bind_run. unfold input at 1. by rewrite Hin.
Qed.

(** C8, as the code has it.  After the menu, with a plain line typed at
    the prompt (ASCII, at most 640 characters: there [parse_int] is int()):
    when int(line) fails the run ends there with ValueError; when it gives
    [n] above the number of names, or at most minus that number, the run
    ends there with IndexError; in both cases nothing is fetched.  When
    1 <= n <= the number of names, the n-th name of the list is the one
    handed to fetch_secret, with the region of the listing.  (For [n] from
    0 down to one more than minus the number of names nothing is raised:
    see [selection_counts_from_end].) *)
Theorem selection_outcomes w st region names st2 line rest :
  until_menu w st = (Return (region, names), st2) ->
  st_stdin st2 = line :: rest ->
  plain_line line = true ->
  let st3 := {| st_stdin := rest; st_files := st_files st2;
                st_trace := st_trace st2 ++ [EvInput select_prompt] |} in
  let len := Z.of_nat (length names) in
  (parse_int line = None -> main w st = (Raise (ValueError line), st3))
  /\ (forall n, parse_int line = Some n -> n > len \/ n <= - len ->
        main w st = (Raise IndexError, st3))
  /\ (forall n, parse_int line = Some n -> 1 <= n <= len ->
        exists name,
          names !! Z.to_nat (n - 1) = Some name
          /\ main w st = (fetch_secret w name region ≫= deliver w) st3).
Proof.
  intros Hu Hin _ st3 len.
  assert (Hmain : main w st =
    (secret_name ← select_secret names;
     secret_value ← fetch_secret w secret_name region;
     deliver w secret_value) st2).
  { rewrite main_until_menu, (bind_return _ _ _ _ _ Hu). reflexivity. }
  rewrite Hmain, bind_run, (select_secret_run _ _ _ _ Hin).
  fold st3. cbv zeta. split; [|split].
  - intros ->. reflexivity.
  - intros n -> Hn.
    rewrite list_index_out_of_range; [reflexivity|]. fold len. lia.
  - intros n -> Hn.
    destruct (list_index_in_range names (n - 1)) as [Hidx [name Hname]];
      [fold len; lia|].
    exists name. split; [exact Hname|].
    rewrite Hidx, Hname. reflexivity.
Qed.

(** What C8 leaves out: 0 and the negative numbers down to one more than
    minus the number of names select a name, counted from the end of the
    list. *)
Lemma selection_counts_from_end w st region names st2 line rest n :
  until_menu w st = (Return (region, names), st2) ->
  st_stdin st2 = line :: rest ->
  parse_int line = Some n ->
  - Z.of_nat (length names) < n <= 0 ->
  exists name,
    names !! Z.to_nat (n - 1 + Z.of_nat (length names)) = Some name
    /\ main w st =
       (fetch_secret w name region ≫= deliver w)
         {| st_stdin := rest; st_files := st_files st2;
            st_trace := st_trace st2 ++ [EvInput select_prompt] |}.
Proof.
  intros Hu Hin Hparse Hn.
  rewrite main_until_menu, (bind_return _ _ _ _ _ Hu). simpl.
  rewrite bind_run, (select_secret_run _ _ _ _ Hin), Hparse. cbv zeta.
  destruct (list_index_from_end names (n - 1)) as [Hidx [name Hname]]; [lia|].
  exists name. split; [exact Hname|].
  rewrite Hidx, Hname. reflexivity.
Qed.

(** The run on an empty listing, by the model's reading of the line. *)
Lemma no_secrets_run w st region client pages st1 :
  resolve_region w st = (Return region, st1) ->
  session_client w region = inr client ->
  paginate_list_secrets client = inr <$> pages ->
  Forall (fun page => SecretList page = []) pages ->
  list_all_secrets w region st1
  = (Return [],
     add_events
       (EvClient region :: replicate (length pages) (EvListSecretsPage region))
       st1)
  /\ main w st =
     (match st_stdin st1 with
      | [] => Raise EOFError
      | line :: _ =>
          match parse_int line with
          | None => Raise (ValueError line)
          | Some _ => Raise IndexError
          end
      end,
      {| st_stdin := tail (st_stdin st1);
         st_files := st_files st1;
         st_trace :=
           st_trace st1
           ++ EvClient region
              :: replicate (length pages) (EvListSecretsPage region)
           ++ [EvPrint "Available Secrets:"; EvInput select_prompt] |}).
Proof.
  intros Hres Hc Hp Hempty.
  assert (Hnames :
    concat (map (fun page => map Name (SecretList page)) pages) = []).
  { clear Hp. induction Hempty as [|page pages Hpage _ IH]; [reflexivity|].
    simpl. by rewrite Hpage, IH. }
  assert (Hlist : list_all_secrets w region st1 =
    (Return [],
     add_events
       (EvClient region :: replicate (length pages) (EvListSecretsPage region))
       st1)).
  { rewrite (list_all_secrets_delivered w region client pages st1 Hc Hp).
    by rewrite Hnames. }
  split; [exact Hlist|].
  rewrite main_after_region, (bind_return _ _ _ _ _ Hres).
  unfold after_region. rewrite (bind_return _ _ _ _ _ Hlist).
  unfold print_menu. simpl print_entries.
  rewrite bind_assoc_run, bind_run, print_add, add_events_app.
  rewrite bind_run. cbn [mret M_ret].
  rewrite bind_run.
  destruct (st_stdin st1) as [|line rest] eqn:Hin.
  - rewrite select_secret_eof by exact Hin.
    unfold add_events. simpl. trace_eq.
  - rewrite (select_secret_run _ line rest) by exact Hin.
    cbv zeta. unfold add_events. simpl.
    destruct (parse_int line) as [n|].
    + rewrite list_index_empty. trace_eq.
    + trace_eq.
Qed.

(** C7, as the code has it.  When the service lists no secret in the
    resolved region, list_all_secrets returns the empty list, and the run
    then ends in an exception at the selection whatever is typed: EOFError
    when nothing is; otherwise ValueError, raised by int() on the line, or
    IndexError, raised by the empty list on whatever integer int() gave.
    On a plain line it is ValueError exactly when int() rejects the line.
    The menu has shown its title only and nothing has been fetched. *)
Theorem no_secrets_selection_raises w st region client pages st1 :
  resolve_region w st = (Return region, st1) ->
  session_client w region = inr client ->
  paginate_list_secrets client = inr <$> pages ->
  Forall (fun page => SecretList page = []) pages ->
  (list_all_secrets w region st1).1 = Return []
  /\ (exists e,
        main w st =
        (Raise e,
         {| st_stdin := tail (st_stdin st1);
            st_files := st_files st1;
            st_trace :=
              st_trace st1
              ++ EvClient region
                 :: replicate (length pages) (EvListSecretsPage region)
              ++ [EvPrint "Available Secrets:"; EvInput select_prompt] |})
        /\ match st_stdin st1 with
           | [] => e = EOFError
           | line :: _ => e = ValueError line \/ e = IndexError
           end)
  /\ (forall line rest,
        st_stdin st1 = line :: rest ->
        plain_line line = true ->
        (main w st).1
        = match parse_int line with
          | None => Raise (ValueError line)
          | Some _ => Raise IndexError
          end).
Proof.
  intros Hres Hc Hp Hempty.
  destruct (no_secrets_run w st region client pages st1 Hres Hc Hp Hempty)
    as (Hlist & Hmain).
  split; [by rewrite Hlist|]. split.
  - rewrite Hmain.
    destruct (st_stdin st1) as [|line rest].
    + eexists. split; reflexivity.
    + destruct (parse_int line); eexists; (split; [reflexivity|]);
        [by right | by left].
  - intros line rest Hin _. rewrite Hmain, Hin. reflexivity.
Qed.

(** * Runs of the sample world *)

(** Three fetches in us-west-2: a text secret, a name the service no
    longer knows, a secret the caller may not read. *)
Lemma fetch_secret_payload_or_none_witness :
  let w := Sample.world None None in
  let st := Sample.typed [] in
  (fetch_secret w "alpha" "us-west-2" st).1 = Return (Some Sample.kv_text)
  /\ fetch_secret w "gone" "us-west-2" st
     = (Return None,
        add_events [EvClient "us-west-2"; EvGetSecretValue "us-west-2" "gone";
                    EvPrint "ERROR: Secret 'gone' not found."] st)
  /\ fetch_secret w "locked" "us-west-2" st
     = (Return None,
        add_events
          [EvClient "us-west-2"; EvGetSecretValue "us-west-2" "locked";
           EvPrint ("ERROR: An error occurred while fetching secret 'locked': "
                    +:+ Sample.denied_text)] st).
Proof.
  intros w st. split; [|split].
  - destruct (fetch_secret_payload_or_none w "alpha" "us-west-2"
                Sample.west_client st eq_refl) as (Hok & _ & _).
    rewrite (Hok (Sample.text_secret "alpha" Sample.kv_text) Sample.kv_text
               eq_refl eq_refl).
    reflexivity.
  - destruct (fetch_secret_payload_or_none w "gone" "us-west-2"
                Sample.west_client st eq_refl) as (_ & Hmissing & _).
    rewrite (Hmissing Sample.missing_text eq_refl). reflexivity.
  - destruct (fetch_secret_payload_or_none w "locked" "us-west-2"
                Sample.west_client st eq_refl) as (_ & _ & Hother).
    rewrite (Hother "AccessDeniedException" Sample.denied_text eq_refl);
      [reflexivity | discriminate].
Defined.

(** The secret stored as bytes. *)
Lemma fetch_secret_missing_string_raises_witness :
  let w := Sample.world None None in
  let st := Sample.typed [] in
  (fetch_secret w "blob" "us-west-2" st).1 = Raise (KeyError "SecretString")
  /\ (fetch_secret w "blob" "us-west-2" st).1 <> Return None.
Proof.
  intros w st.
  destruct (fetch_secret_missing_string_raises w "blob" "us-west-2"
              Sample.west_client
              (Sample.binary_secret "blob" [Byte.x00; Byte.xff]) st
              eq_refl eq_refl eq_refl) as (Hrun & Hnot & _).
  split; [by rewrite Hrun | exact Hnot].
Defined.

(** Two pages, five names, in the order of the pages. *)
Lemma list_all_secrets_concat_witness :
  (list_all_secrets (Sample.world None None) "us-west-2" (Sample.typed [])).1
  = Return ["alpha"; "gone"; "locked"; "blob"; "beta"].
Proof.
  destruct (list_all_secrets_concat (Sample.world None None) "us-west-2"
              Sample.west_client Sample.west_pages (Sample.typed [])
              eq_refl eq_refl) as (Hnames & _).
  rewrite Hnames. reflexivity.
Defined.

(** Writing over a file that exists; the text has a line feed and no
    carriage return. *)
Lemma write_to_file_read_back_witness :
  let w := Sample.world None (Some "out.txt") in
  let st := init [] {[ "out.txt" := "an older and longer text" ]} in
  let V := "plain" +:+ nl +:+ "text" in
  let st' := (write_to_file w V "out.txt" st).2 in
  (write_to_file w V "out.txt" st).1 = Return tt
  /\ st_files st' = <[ "out.txt" := V ]> (st_files st)
  /\ read_file w "out.txt" st' = (Return V, st').
Proof.
  intros w st V.
  destruct (write_to_file_read_back w V "out.txt" st eq_refl)
    as (Hret & Hfiles & _ & Hread).
  split; [exact Hret|]. split; [exact Hfiles|].
  apply Hread. reflexivity.
Defined.

(** C4 as stated fails: a text with a carriage return before its line feed
    is written to a path that can be created, and the read gives another
    text back, the carriage return gone. *)
Lemma carriage_return_not_read_back :
  let w := Sample.world None (Some "out.txt") in
  let V := "a" +:+ Sample.cr +:+ nl +:+ "b" in
  let st' := (write_to_file w V "out.txt" (Sample.typed [])).2 in
  creatable w "out.txt" = true
  /\ (write_to_file w V "out.txt" (Sample.typed [])).1 = Return tt
  /\ (read_file w "out.txt" st').1 = Return ("a" +:+ nl +:+ "b")
  /\ (read_file w "out.txt" st').1 <> Return V.
Proof. vm_compute. repeat split. discriminate. Qed.

(** The operator picks the second name, which the service no longer
    knows. *)
Lemma fetch_none_exits_witness :
  let w := Sample.world None None in
  let st := Sample.typed ["us-west-2"; "2"] in
  (main w st).1 = Return tt
  /\ last (st_trace (main w st).2) = Some (EvPrint "Exiting program.")
  /\ st_files (main w st).2 = ∅
  /\ emits_only (fun ev => is_sink_event ev = false) st (main w st).2.
Proof.
  intros w st.
  destruct (fetch_none_exits w st "us-west-2" "gone"
              (until_fetch w st).2
              (fetch_secret w "gone" "us-west-2" (until_fetch w st).2).2)
    as (Hmain & Hfiles & Hquiet).
  - vm_compute. reflexivity.
  - vm_compute. reflexivity.
  - split; [by rewrite Hmain|]. split; [by rewrite Hmain|].
    split; [exact Hfiles | exact Hquiet].
Defined.

(** The first name holds JSON text, the last one plain text. *)
Lemma display_mode_output_witness :
  let w := Sample.world None None in
  let json_run := Sample.typed ["us-west-2"; "1"; EmptyString] in
  let text_run := Sample.typed ["us-west-2"; "5"; EmptyString] in
  (exists rest,
      st_trace (main w json_run).2
      = st_trace (fetch_secret w "alpha" "us-west-2" (until_fetch w json_run).2).2
        ++ EvPrint header :: EvPrint (Sample.dumps [("k", "v")] 4)
           :: EvInput press_enter_prompt :: rest)
  /\ (exists rest,
      st_trace (main w text_run).2
      = st_trace (fetch_secret w "beta" "us-west-2" (until_fetch w text_run).2).2
        ++ EvPrint header :: EvPrint "plain-text-secret"
           :: EvInput press_enter_prompt :: rest).
Proof.
  intros w json_run text_run. split.
  - destruct (display_mode_output w json_run "us-west-2" "alpha"
                (until_fetch w json_run).2 Sample.kv_text
                (fetch_secret w "alpha" "us-west-2" (until_fetch w json_run).2).2)
      as (Hjson & _ & _).
    + reflexivity.
    + vm_compute. reflexivity.
    + vm_compute. reflexivity.
    + apply (Hjson [("k", "v")]). reflexivity.
  - destruct (display_mode_output w text_run "us-west-2" "beta"
                (until_fetch w text_run).2 "plain-text-secret"
                (fetch_secret w "beta" "us-west-2" (until_fetch w text_run).2).2)
      as (_ & Htext & _).
    + reflexivity.
    + vm_compute. reflexivity.
    + vm_compute. reflexivity.
    + apply Htext. reflexivity.
Defined.

(** C3 as stated fails: the value fetched is a numeral of 4301 digits,
    which is JSON text; json.loads raises ValueError on it, which the
    except clause for JSONDecodeError lets through, and the run ends with
    it after the fetch: no header, no value, pretty-printed or not. *)
Lemma long_number_not_displayed :
  let w := Limits.world in
  let st := Sample.typed ["1"; EmptyString] in
  String.length Limits.long_number = 4301%nat
  /\ forallb (fun c => Ascii.eqb c "1")
       (String.list_ascii_of_string Limits.long_number) = true
  /\ truthy (args_output w) = false
  /\ (fetch_secret w "digits" "us-west-2" (until_fetch w st).2).1
     = Return (Some Limits.long_number)
  /\ json_loads w Limits.long_number = inl Sample.digit_limit_error
  /\ (main w st).1 = Raise Sample.digit_limit_error
  /\ st_trace (main w st).2
     = [EvClient "us-west-2"; EvListSecretsPage "us-west-2";
        EvPrint "Available Secrets:"; EvPrint "1. digits";
        EvInput select_prompt;
        EvClient "us-west-2"; EvGetSecretValue "us-west-2" "digits"].
Proof. vm_compute. repeat split. Qed.

(** The variable set to eu-west-1; the variable unset with us-west-2 typed
    at the prompt; the variable empty with an empty line typed. *)
Lemma region_precedence_witness :
  (exists evs,
      st_trace (main (Sample.world (Some "eu-west-1") None) (Sample.typed ["1"])).2
      = EvClient "eu-west-1" :: evs
      /\ Forall (uses_region "eu-west-1") evs
      /\ EvInput region_prompt ∉ EvClient "eu-west-1" :: evs)
  /\ (exists evs,
      st_trace (main (Sample.world None None)
                  (Sample.typed ["us-west-2"; "1"; EmptyString])).2
      = EvInput region_prompt :: EvClient "us-west-2" :: evs
      /\ Forall (uses_region "us-west-2") evs)
  /\ (exists evs,
      st_trace (main (Sample.world (Some EmptyString) None)
                  (Sample.typed [EmptyString; "1"])).2
      = EvInput region_prompt :: EvClient EmptyString :: evs
      /\ Forall (uses_region EmptyString) evs).
Proof.
  split; [|split].
  - destruct (region_precedence (Sample.world (Some "eu-west-1") None)
                (Sample.typed ["1"])) as (Hset & _).
    apply (Hset "eu-west-1"); [reflexivity | discriminate].
  - destruct (region_precedence (Sample.world None None)
                (Sample.typed ["us-west-2"; "1"; EmptyString])) as (_ & Hunset).
    apply (Hunset "us-west-2" ["1"; EmptyString]); [left|]; reflexivity.
  - destruct (region_precedence (Sample.world (Some EmptyString) None)
                (Sample.typed [EmptyString; "1"])) as (_ & Hunset).
    apply (Hunset EmptyString ["1"]); [right|]; reflexivity.
Defined.

(** eu-west-1 lists nothing; whatever is typed at the menu, the run ends
    in an exception. *)
Lemma no_secrets_selection_raises_witness :
  let w := Sample.world (Some "eu-west-1") None in
  (list_all_secrets w "eu-west-1" (Sample.typed ["1"])).1 = Return []
  /\ (main w (Sample.typed ["1"])).1 = Raise IndexError
  /\ (main w (Sample.typed ["first"])).1 = Raise (ValueError "first")
  /\ (exists e, (main w (Sample.typed [])).1 = Raise e /\ e = EOFError).
Proof.
  intros w.
  assert (Hempty : Forall (fun page => SecretList page = [])
                     [ {| SecretList := [] |} ]).
  { constructor; [reflexivity | constructor]. }
  destruct (no_secrets_selection_raises w (Sample.typed ["1"]) "eu-west-1"
              Sample.empty_client [ {| SecretList := [] |} ]
              (Sample.typed ["1"]) eq_refl eq_refl eq_refl Hempty)
    as (Hlist & _ & Hone).
  destruct (no_secrets_selection_raises w (Sample.typed ["first"]) "eu-west-1"
              Sample.empty_client [ {| SecretList := [] |} ]
              (Sample.typed ["first"]) eq_refl eq_refl eq_refl Hempty)
    as (_ & _ & Hword).
  destruct (no_secrets_selection_raises w (Sample.typed []) "eu-west-1"
              Sample.empty_client [ {| SecretList := [] |} ]
              (Sample.typed []) eq_refl eq_refl eq_refl Hempty)
    as (_ & (e & Hmain & He) & _).
  split; [exact Hlist|].
  split; [exact (Hone "1" [] eq_refl eq_refl)|].
  split; [exact (Hword "first" [] eq_refl eq_refl)|].
  exists e. split; [by rewrite Hmain | exact He].
Defined.

(** C7 as stated fails: in eu-west-1, which lists no secret, the operator
    types 1 and the run ends with IndexError at the selection, not with a
    clean return. *)
Lemma no_secrets_run_crashes :
  let w := Sample.world (Some "eu-west-1") None in
  let st := Sample.typed ["1"] in
  (list_all_secrets w "eu-west-1" st).1 = Return []
  /\ (main w st).1 = Raise IndexError
  /\ (main w st).1 <> Return tt
  /\ st_trace (main w st).2
     = [EvClient "eu-west-1"; EvListSecretsPage "eu-west-1";
        EvPrint "Available Secrets:"; EvInput select_prompt].
Proof. vm_compute. repeat split; discriminate. Qed.

(** Five names: a word, 6 and -5 end the run; 1 and 5 select the first
    and the last name. *)
Lemma selection_outcomes_witness :
  let w := Sample.world None None in
  (main w (Sample.typed ["us-west-2"; "one"])).1 = Raise (ValueError "one")
  /\ (main w (Sample.typed ["us-west-2"; "6"])).1 = Raise IndexError
  /\ (main w (Sample.typed ["us-west-2"; "-5"])).1 = Raise IndexError
  /\ (exists st3,
        main w (Sample.typed ["us-west-2"; "1"; EmptyString])
        = (fetch_secret w "alpha" "us-west-2" ≫= deliver w) st3)
  /\ (exists st3,
        main w (Sample.typed ["us-west-2"; "5"; EmptyString])
        = (fetch_secret w "beta" "us-west-2" ≫= deliver w) st3).
Proof.
  intros w.
  pose (names := ["alpha"; "gone"; "locked"; "blob"; "beta"]).
  assert (Hmenu : forall rest,
    until_menu w (Sample.typed ("us-west-2" :: rest))
    = (Return ("us-west-2", names),
       (until_menu w (Sample.typed ("us-west-2" :: rest))).2)).
  { intros rest. reflexivity. }
  split; [|split; [|split; [|split]]].
  - destruct (selection_outcomes w (Sample.typed ["us-west-2"; "one"])
                "us-west-2" names _ "one" [] (Hmenu ["one"]) eq_refl eq_refl)
      as (Hword & _).
    by rewrite (Hword eq_refl).
  - destruct (selection_outcomes w (Sample.typed ["us-west-2"; "6"])
                "us-west-2" names _ "6" [] (Hmenu ["6"]) eq_refl eq_refl)
      as (_ & Hout & _).
    rewrite (Hout 6 eq_refl); [reflexivity | simpl; lia].
  - destruct (selection_outcomes w (Sample.typed ["us-west-2"; "-5"])
                "us-west-2" names _ "-5" [] (Hmenu ["-5"]) eq_refl eq_refl)
      as (_ & Hout & _).
    rewrite (Hout (-5) eq_refl); [reflexivity | simpl; lia].
  - destruct (selection_outcomes w
                (Sample.typed ["us-west-2"; "1"; EmptyString])
                "us-west-2" names _ "1" [EmptyString]
                (Hmenu ["1"; EmptyString]) eq_refl eq_refl)
      as (_ & _ & Hin).
    destruct (Hin 1 eq_refl) as (name & Hname & Hmain); [simpl; lia|].
    injection Hname as <-. eexists. exact Hmain.
  - destruct (selection_outcomes w
                (Sample.typed ["us-west-2"; "5"; EmptyString])
                "us-west-2" names _ "5" [EmptyString]
                (Hmenu ["5"; EmptyString]) eq_refl eq_refl)
      as (_ & _ & Hin).
    destruct (Hin 5 eq_refl) as (name & Hname & Hmain); [simpl; lia|].
    injection Hname as <-. eexists. exact Hmain.
Defined.

(** C8 as stated fails: with five names on the menu the operator types 0,
    which is no number of the menu; nothing is raised, the last name is
    fetched and shown, and the run returns. *)
Lemma selection_zero_fetches_last :
  let w := Sample.world None None in
  let st := Sample.typed ["us-west-2"; "0"; EmptyString] in
  parse_int "0" = Some 0
  /\ (until_menu w st).1
     = Return ("us-west-2", ["alpha"; "gone"; "locked"; "blob"; "beta"])
  /\ (main w st).1 = Return tt
  /\ st_trace (main w st).2
     = [EvInput region_prompt; EvClient "us-west-2";
        EvListSecretsPage "us-west-2"; EvListSecretsPage "us-west-2";
        EvPrint "Available Secrets:"; EvPrint "1. alpha"; EvPrint "2. gone";
        EvPrint "3. locked"; EvPrint "4. blob"; EvPrint "5. beta";
        EvInput select_prompt;
        EvClient "us-west-2"; EvGetSecretValue "us-west-2" "beta";
        EvPrint header; EvPrint "plain-text-secret";
        EvInput press_enter_prompt; EvSystem "clear"].
Proof. vm_compute. repeat split. Qed.

(** The last name written to out.txt. *)
Lemma write_mode_never_clears_witness :
  let w := Sample.world None (Some "out.txt") in
  let st := Sample.typed ["us-west-2"; "5"] in
  emits_only (fun ev => clears_or_waits ev = false) st (main w st).2
  /\ (main w st).1 = Return tt
  /\ st_files (main w st).2 !! "out.txt" = Some "plain-text-secret"
  /\ last (st_trace (main w st).2)
     = Some (EvPrint "Secret value fetched and stored in out.txt successfully.").
Proof.
  intros w st.
  destruct (write_mode_never_clears w "out.txt" st eq_refl) as (Hquiet & Hrun);
    [discriminate|].
  split; [exact Hquiet|].
  rewrite (Hrun "us-west-2" "beta" (until_fetch w st).2 "plain-text-secret"
             (fetch_secret w "beta" "us-west-2" (until_fetch w st).2).2).
  - split; [reflexivity|]. split; [|reflexivity].
    simpl. apply lookup_insert_eq.
  - vm_compute. reflexivity.
  - vm_compute. reflexivity.
  - reflexivity.
Defined.

(** C9 as stated fails: --output is given, with the empty string; the
    fetch succeeds; the value is shown on the terminal, the run waits for
    Enter and clears the screen, and no file is written. *)
Lemma empty_output_path_displays :
  let w := Sample.world None (Some EmptyString) in
  let st := Sample.typed ["us-west-2"; "5"; EmptyString] in
  args_output w = Some EmptyString
  /\ (fetch_secret w "beta" "us-west-2" (until_fetch w st).2).1
     = Return (Some "plain-text-secret")
  /\ (main w st).1 = Return tt
  /\ st_files (main w st).2 = ∅
  /\ st_trace (main w st).2
     = [EvInput region_prompt; EvClient "us-west-2";
        EvListSecretsPage "us-west-2"; EvListSecretsPage "us-west-2";
        EvPrint "Available Secrets:"; EvPrint "1. alpha"; EvPrint "2. gone";
        EvPrint "3. locked"; EvPrint "4. blob"; EvPrint "5. beta";
        EvInput select_prompt;
        EvClient "us-west-2"; EvGetSecretValue "us-west-2" "beta";
        EvPrint header; EvPrint "plain-text-secret";
        EvInput press_enter_prompt; EvSystem "clear"].
Proof. vm_compute. repeat split. Qed.

(** * Further properties *)

(** ** fetch_secret: when it returns and when it raises *)

(** X1. Once the client is built, fetch_secret returns None exactly when
    get_secret_value fails with a ClientError, and returns a value exactly
    when the response carries that value as its SecretString. *)
Theorem fetch_secret_result_iff w secret_name region_name client st :
  session_client w region_name = inr client ->
  ((fetch_secret w secret_name region_name st).1 = Return None
   <-> exists code text,
         get_secret_value client secret_name = inl (ClientError code text))
  /\ (forall v,
        (fetch_secret w secret_name region_name st).1 = Return (Some v)
        <-> exists response,
              get_secret_value client secret_name = inr response
              /\ resp_SecretString response = Some v).
Proof.
  intros Hc. rewrite (fetch_secret_run _ _ _ _ _ Hc). cbv zeta.
  destruct (get_secret_value client secret_name) as [e|response] eqn:Hget.
  - split.
    + split.
      * destruct e; simpl; try discriminate. intros _. by eexists _, _.
      * intros (code & text & [= ->]). reflexivity.
    + intros v. split.
      * destruct e; simpl; discriminate.
      * intros (response & [=] & _).
  - destruct (resp_SecretString response) as [s|] eqn:Hs; simpl.
    + split.
      * split; [discriminate | intros (? & ? & [=])].
      * intros v. split.
        -- intros [= ->]. by exists response.
        -- intros (r & [= <-] & Hv). congruence.
    + split.
      * split; [discriminate | intros (? & ? & [=])].
      * intros v. split; [discriminate|].
        intros (r & [= <-] & Hv). congruence.
Qed.

(** X2. What fetch_secret lets through.  An exception of get_secret_value
    that is not a ClientError goes on to the caller with nothing printed;
    an exception raised while the client is built goes on too, whatever it
    is, since the client is built before the try, and no call is made. *)
Theorem fetch_secret_lets_through w secret_name region_name st :
  (forall e,
      session_client w region_name = inl e ->
      fetch_secret w secret_name region_name st
      = (Raise e, add_events [EvClient region_name] st))
  /\ (forall client e,
      session_client w region_name = inr client ->
      get_secret_value client secret_name = inl e ->
      is_client_error e = false ->
      fetch_secret w secret_name region_name st
      = (Raise e,
         add_events
           [EvClient region_name; EvGetSecretValue region_name secret_name] st)).
Proof.
  split.
  - intros e He. unfold fetch_secret.
    apply bind_raise. by apply new_client_fails.
  - intros client e Hc Hget Hnot.
    rewrite (fetch_secret_run _ _ _ _ _ Hc), Hget.
    by destruct e.
Qed.

(** ** The service calls and the operator's side *)

#[global] Instance same_input_and_files_preorder : PreOrder same_input_and_files.
Proof.
  split.
  - intros st. by split.
  - intros st1 st2 st3 [H1 H2] [H3 H4]. split; congruence.
Qed.

#[global] Instance same_file_at_preorder path : PreOrder (same_file_at path).
Proof.
  split.
  - intros st. reflexivity.
  - intros st1 st2 st3 H12 H23. unfold same_file_at in *. congruence.
Qed.

Lemma same_input_and_files_log ev : respects same_input_and_files (log ev).
Proof. intros st. by split. Qed.

(** X3. Neither fetch_secret nor list_all_secrets reads a line from the
    operator or changes a file, however the service answers. *)
Theorem service_calls_keep_input_and_files w secret_name region_name st :
  same_input_and_files st (fetch_secret w secret_name region_name st).2
  /\ same_input_and_files st (list_all_secrets w region_name st).2.
Proof.
  assert (Hclient : respects same_input_and_files (new_client w region_name)).
  { unfold new_client.
    apply respects_bind;
      [apply _ | apply same_input_and_files_log | intros _].
    destruct (session_client w region_name); respects_step. }
  split.
  - revert st. change (respects same_input_and_files
                         (fetch_secret w secret_name region_name)).
    unfold fetch_secret.
    apply respects_bind; [apply _ | exact Hclient | intros client].
    apply respects_try_except; [apply _ | | ].
    + unfold call_get_secret_value, getitem_SecretString.
      apply respects_bind; [apply _ | | intros response].
      * apply respects_bind;
          [apply _ | apply same_input_and_files_log | intros _].
        destruct (get_secret_value client secret_name); respects_step.
      * apply respects_bind; [apply _ | | intros v; respects_step].
        destruct (resp_SecretString response); respects_step.
    + intros [] h [= <-]. unfold print.
      apply respects_bind; [apply _ | | intros _; respects_step].
      destruct (String.eqb code "ResourceNotFoundException");
        apply same_input_and_files_log.
  - revert st. change (respects same_input_and_files
                         (list_all_secrets w region_name)).
    unfold list_all_secrets.
    apply respects_bind; [apply _ | exact Hclient | intros client].
    apply respects_bind; [apply _ | | intros secrets; respects_step].
    apply extend_pages_respects; [apply _ | apply same_input_and_files_log].
Qed.

(** ** A listing that fails *)

(** X4. Nothing in main catches a failure of the listing.  When the client
    for the resolved region cannot be built, or when a page fails after
    some pages have arrived, the run ends with that exception: no menu is
    printed, no selection is asked for, nothing is fetched, and the names
    of the pages that did arrive are lost. *)
Theorem listing_failure_ends_run w st region st1 :
  resolve_region w st = (Return region, st1) ->
  (forall e,
      session_client w region = inl e ->
      main w st = (Raise e, add_events [EvClient region] st1))
  /\ (forall client pages e later,
      session_client w region = inr client ->
      paginate_list_secrets client = (inr <$> pages) ++ inl e :: later ->
      (list_all_secrets w region st1).1 = Raise e
      /\ main w st
         = (Raise e,
            add_events
              (EvClient region
                 :: replicate (S (length pages)) (EvListSecretsPage region))
              st1)).
Proof.
  intros Hres. split.
  - intros e He.
    rewrite main_after_region, (bind_return _ _ _ _ _ Hres).
    unfold after_region, list_all_secrets.
    apply bind_raise, bind_raise. by apply new_client_fails.
  - intros client pages e later Hc Hp.
    assert (Hlist : list_all_secrets w region st1
      = (Raise e,
         add_events
           (EvClient region
              :: replicate (S (length pages)) (EvListSecretsPage region))
           st1)).
    { unfold list_all_secrets.
      rewrite (bind_return _ _ _ _ _ (new_client_ok _ _ _ _ Hc)).
      rewrite Hp. erewrite bind_raise; [|apply extend_pages_failure].
      by rewrite add_events_app. }
    split; [by rewrite Hlist|].
    rewrite main_after_region, (bind_return _ _ _ _ _ Hres).
    unfold after_region. by apply bind_raise.
Qed.

(** ** The menu *)

Lemma print_entries_run secret_names : forall idx st,
  print_entries idx secret_names st =
  (Return tt,
   add_events
     (imap (fun i name => EvPrint (menu_line (idx + i) name)) secret_names) st).
Proof.
  induction secret_names as [|name rest IH]; intros idx st; simpl.
  - by rewrite add_events_nil.
  - rewrite bind_run, print_add, IH, add_events_app. simpl.
    rewrite Nat.add_0_r. do 3 f_equal.
    apply imap_ext. intros i x _. simpl. by rewrite Nat.add_succ_r.
Qed.

Lemma print_menu_run secret_names st :
  print_menu secret_names st = (Return tt, add_events (menu_events secret_names) st).
Proof.
  unfold print_menu. rewrite bind_run, print_add, print_entries_run.
  by rewrite add_events_app.
Qed.

(** X5. print_menu always returns, having printed the title and then one
    line per name, in the order of the list, the k-th name (from 0) under
    the number k+1; it reads nothing and changes no file. *)
Theorem print_menu_lines secret_names st :
  (print_menu secret_names st).1 = Return tt
  /\ st_trace (print_menu secret_names st).2
     = st_trace st ++ menu_events secret_names
  /\ same_input_and_files st (print_menu secret_names st).2
  /\ length (menu_events secret_names) = S (length secret_names)
  /\ forall k name,
       secret_names !! k = Some name ->
       menu_events secret_names !! S k
       = Some (EvPrint (pretty (k + 1)%nat +:+ ". " +:+ name)).
Proof.
  rewrite print_menu_run. simpl.
  split; [reflexivity|]. split; [reflexivity|]. split; [done|]. split.
  - unfold menu_events. simpl. by rewrite length_imap.
  - intros k name Hk. unfold menu_events. simpl.
    rewrite list_lookup_imap, Hk. reflexivity.
Qed.

(** ** The number shown is the number to type *)

Lemma digit_val_pretty_N_char (d : N) :
  (d < 10)%N -> digit_val (pretty_N_char d) = Some (Z.of_N d).
Proof.
  intros Hd.
  assert (d = 0 \/ d = 1 \/ d = 2 \/ d = 3 \/ d = 4 \/ d = 5 \/ d = 6
          \/ d = 7 \/ d = 8 \/ d = 9)%N as Hcases by lia.
  repeat (destruct Hcases as [-> | Hcases]; [reflexivity|]).
  subst d. reflexivity.
Qed.

Lemma digit_not_space c : is_Some (digit_val c) -> is_space c = false.
Proof.
  unfold digit_val, is_space. intros [d Hd].
  destruct ((48 <=? nat_of_ascii c)%nat && (nat_of_ascii c <=? 57)%nat) eqn:Hr;
    [|discriminate].
  apply andb_true_iff in Hr as [H1 H2].
  apply Nat.leb_le in H1. apply Nat.leb_le in H2.
  apply orb_false_iff. split.
  - apply andb_false_iff. right. apply Nat.leb_gt. lia.
  - apply Nat.eqb_neq. lia.
Qed.

Lemma lstrip_digits l :
  Forall (fun c => is_Some (digit_val c)) l -> lstrip l = l.
Proof.
  intros Hl. destruct Hl as [|c r Hc _]; [reflexivity|].
  simpl. by rewrite (digit_not_space c Hc).
Qed.

Lemma strip_digits l :
  Forall (fun c => is_Some (digit_val c)) l -> strip l = l.
Proof.
  intros Hl. unfold strip.
  rewrite (lstrip_digits l Hl), lstrip_digits, rev_involutive; [done|].
  by apply Forall_rev.
Qed.

(** The characters pretty_N_go puts before its accumulator are the decimal
    digits of the number, most significant first. *)
Lemma pretty_N_go_digits (x : N) :
  exists ds,
    (forall s, String.list_ascii_of_string (pretty_N_go x s)
               = ds ++ String.list_ascii_of_string s)
    /\ Forall (fun c => is_Some (digit_val c)) ds
    /\ (x = 0%N -> ds = [])
    /\ ((0 < x)%N ->
        forall acc b rest,
          digits acc b (ds ++ rest)
          = digits (acc * 10 ^ Z.of_nat (length ds) + Z.of_N x) true rest).
Proof.
  induction (N.lt_wf_0 x) as [x _ IH].
  destruct (decide (x = 0%N)) as [->|Hx].
  - exists []. split; [|split; [|split]].
    + intros s. by rewrite pretty_N_go_0.
    + constructor.
    + done.
    + lia.
  - destruct (IH (x `div` 10)%N) as (ds & Hds & Hall & Hzero & Hval).
    { apply N.div_lt; lia. }
    assert (Hmod : (x `mod` 10 < 10)%N) by (apply N.mod_lt; lia).
    pose proof (digit_val_pretty_N_char _ Hmod) as Hd.
    exists (ds ++ [pretty_N_char (x `mod` 10)]). split; [|split; [|split]].
    + intros s. rewrite pretty_N_go_step by lia.
      rewrite Hds. simpl. by rewrite <- app_assoc.
    + apply Forall_app. split; [exact Hall|].
      constructor; [by rewrite Hd | constructor].
    + lia.
    + intros _ acc b rest. rewrite <- app_assoc. simpl.
      assert (Hx10 : Z.of_N x
                     = 10 * Z.of_N (x `div` 10) + Z.of_N (x `mod` 10)).
      { rewrite <- (N2Z.inj_mul 10), <- N2Z.inj_add.
        f_equal. apply N.div_mod. lia. }
      destruct (decide (x `div` 10 = 0)%N) as [H0|H0].
      * rewrite (Hzero H0). simpl. rewrite Hd.
        f_equal. rewrite Hx10, H0. simpl. lia.
      * rewrite Hval by lia. simpl. rewrite Hd.
        f_equal. rewrite length_app, Nat2Z.inj_add. simpl.
        rewrite Z.pow_add_r by lia. rewrite Hx10. lia.
Qed.

(** int() reads back the decimal numeral of a natural number. *)
Lemma parse_int_pretty (n : nat) : parse_int (pretty n) = Some (Z.of_nat n).
Proof.
  unfold pretty, pretty_nat, pretty, pretty_N.
  destruct (decide (N.of_nat n = 0%N)) as [H0|H0].
  - assert (n = 0%nat) as -> by lia. reflexivity.
  - destruct (pretty_N_go_digits (N.of_nat n)) as (ds & Hds & Hall & _ & Hval).
    unfold parse_int. rewrite (Hds EmptyString). simpl.
    rewrite app_nil_r, (strip_digits ds Hall).
    assert (Hparse : digits 0 false ds = Some (Z.of_nat n)).
    { rewrite <- (app_nil_r ds), Hval by lia. simpl.
      f_equal. rewrite nat_N_Z. lia. }
    destruct ds as [|c r]; [discriminate|].
    apply Forall_cons in Hall as [[d Hc] _].
    assert (Ascii.eqb c "-" = false) as ->.
    { apply Ascii.eqb_neq. intros ->. discriminate. }
    assert (Ascii.eqb c "+" = false) as ->.
    { apply Ascii.eqb_neq. intros ->. discriminate. }
    exact Hparse.
Qed.

Lemma until_menu_shows_menu w st region names st2 :
  until_menu w st = (Return (region, names), st2) ->
  exists st1, st2 = add_events (menu_events names) st1.
Proof.
  unfold until_menu. rewrite !bind_run.
  destruct (resolve_region w st) as [[r|e] st0]; [|discriminate].
  rewrite !bind_run.
  destruct (list_all_secrets w r st0) as [[l|e] st1]; [|discriminate].
  rewrite bind_run, print_menu_run. simpl.
  intros [= <- <- <-]. by exists st1.
Qed.

(** X6. The menu and the selection agree.  Whatever the list, the line the
    menu shows for a name carries a number, and that number typed back at
    the prompt selects that very name: it is the one handed to
    fetch_secret, with the region of the listing. *)
Theorem menu_number_selects w st region names st2 k name rest :
  until_menu w st = (Return (region, names), st2) ->
  names !! k = Some name ->
  st_stdin st2 = pretty (k + 1)%nat :: rest ->
  EvPrint (pretty (k + 1)%nat +:+ ". " +:+ name) ∈ st_trace st2
  /\ main w st
     = (fetch_secret w name region ≫= deliver w)
         {| st_stdin := rest; st_files := st_files st2;
            st_trace := st_trace st2 ++ [EvInput select_prompt] |}.
Proof.
  intros Hu Hk Hin. split.
  - destruct (until_menu_shows_menu _ _ _ _ _ Hu) as [st1 ->]. simpl.
    apply elem_of_app. right.
    apply list_elem_of_lookup. exists (S k).
    unfold menu_events. simpl. by rewrite list_lookup_imap, Hk.
  - rewrite main_until_menu, (bind_return _ _ _ _ _ Hu). simpl.
    rewrite bind_run, (select_secret_run _ _ _ _ Hin), parse_int_pretty.
    cbv zeta.
    destruct (list_index_in_range names (Z.of_nat (k + 1) - 1)) as [Hidx _].
    { apply lookup_lt_Some in Hk. lia. }
    rewrite Hidx.
    replace (Z.to_nat (Z.of_nat (k + 1) - 1)) with k by lia.
    rewrite Hk. reflexivity.
Qed.

(** ** Only a listed name is fetched *)

Lemma list_index_elem_of {A : Type} (l : list A) (i : Z) (a : A) :
  list_index l i = Some a -> a ∈ l.
Proof.
  unfold list_index.
  destruct ((0 <=? _) && _); [|discriminate].
  intros H. by eapply list_elem_of_lookup_2.
Qed.

Lemma select_secret_returns_listed secret_names st name st' :
  select_secret secret_names st = (Return name, st') -> name ∈ secret_names.
Proof.
  unfold select_secret, int, getitem. rewrite bind_run.
  destruct (input _ st) as [[line|e] st1]; [|discriminate].
  rewrite bind_run.
  destruct (parse_int line) as [n|]; simpl; [|discriminate].
  destruct (list_index secret_names (n - 1)) as [a|] eqn:Hidx; simpl;
    [|discriminate].
  intros [= <- _]. by eapply list_index_elem_of.
Qed.

Lemma deliver_no_service_call w (P : event -> Prop) v :
  (forall ev, is_service_call ev = false -> P ev) ->
  respects (emits_only P) (deliver w v).
Proof.
  intros HP.
  unfold deliver, write_to_file, display, py_json_loads, clear_screen,
    os_system, print.
  respects_auto; by apply HP.
Qed.

Lemma until_menu_no_fetch w (P : event -> Prop) :
  (forall ev, (forall r n, ev <> EvGetSecretValue r n) -> P ev) ->
  respects (emits_only P) (until_menu w).
Proof.
  intros HP. unfold until_menu.
  apply respects_bind; [apply _ | | intros region].
  { unfold resolve_region, os_getenv. respects_auto. by apply HP. }
  apply respects_bind; [apply _ | | intros names].
  { unfold list_all_secrets.
    apply respects_bind; [apply _ | | intros client].
    { unfold new_client. respects_auto; by apply HP. }
    apply respects_bind; [apply _ | | intros secrets; respects_step].
    apply extend_pages_respects; [apply _|]. apply emits_log. by apply HP. }
  apply respects_bind; [apply _ | | intros _; respects_step].
  unfold print_menu, print.
  apply respects_bind; [apply _ | apply emits_log; by apply HP | intros _].
  apply print_entries_respects; [apply _|].
  intros idx name. apply emits_log. by apply HP.
Qed.

(** X7. main asks the service for the value of a listed name only, and in
    the region of the listing: whatever is typed at the menu, in range, out
    of range or counted from the end, every get_secret_value call of the
    run names one of the names the listing returned. *)
Theorem only_listed_names_are_fetched w st region names st2 :
  until_menu w st = (Return (region, names), st2) ->
  emits_only (fetches_listed region names) st (main w st).2.
Proof.
  intros Hu.
  assert (Hpre : forall ev,
    (forall r n, ev <> EvGetSecretValue r n) -> fetches_listed region names ev).
  { intros ev Hne. destruct ev as [| | | |r n| | |]; try exact I.
    by destruct (Hne r n). }
  etrans.
  { apply (respects_result _ _ _ _ _ (until_menu_no_fetch w _ Hpre) Hu). }
  rewrite main_until_menu, (bind_return _ _ _ _ _ Hu). simpl.
  rewrite bind_run.
  assert (Hsel : respects (emits_only (fetches_listed region names))
                   (select_secret names)).
  { unfold select_secret, int, getitem. respects_auto. exact I. }
  pose proof (Hsel st2) as H2.
  destruct (select_secret names st2) as [[name|e] st3] eqn:Hs; simpl in *;
    [|exact H2].
  etrans; [exact H2|].
  pose proof (select_secret_returns_listed _ _ _ _ Hs) as Hname.
  apply respects_bind; [apply _ | | intros v].
  - unfold fetch_secret, new_client, call_get_secret_value,
      getitem_SecretString, print.
    respects_auto; try exact I. by split.
  - apply deliver_no_service_call. by intros [].
Qed.

(** ** How a display ends *)

(** X8. Display mode after a fetch that returned [V].  When json.loads
    raises anything but JSONDecodeError, the run ends with that exception
    before a single line is shown.  Otherwise the value is shown and the run
    waits for a line: when one is typed the screen is cleared once, with cls
    where os.name is nt and with clear anywhere else, and main returns; when
    the input has ended the run stops with EOFError and the screen is left
    as it is.  No file changes in any of these cases. *)
Theorem display_mode_ending w st region name st3 V st4 :
  truthy (args_output w) = false ->
  until_fetch w st = (Return (region, name), st3) ->
  fetch_secret w name region st3 = (Return (Some V), st4) ->
  main w st =
  match display_text w V with
  | inl e => (Raise e, st4)
  | inr body =>
      let shown :=
        [EvPrint header; EvPrint body; EvInput press_enter_prompt] in
      match st_stdin st4 with
      | [] =>
          (Raise EOFError,
           {| st_stdin := []; st_files := st_files st4;
              st_trace := st_trace st4 ++ shown |})
      | _ :: rest =>
          (Return tt,
           {| st_stdin := rest; st_files := st_files st4;
              st_trace := st_trace st4 ++ shown ++ [EvSystem (clear_command w)] |})
      end
  end
  /\ st_files (main w st).2 = st_files st.
Proof.
  intros Hmode Hu Hf.
  pose proof (respects_result _ _ _ _ _ (until_fetch_same_files w) Hu) as H1.
  pose proof (respects_result _ _ _ _ _
                (fetch_secret_same_files w name region) Hf) as H2.
  unfold same_files in *.
  assert (Hshown : forall body,
    display w V st4
    = (Return tt, add_events [EvPrint header; EvPrint body] st4) ->
    main w st =
    match st_stdin st4 with
    | [] =>
        (Raise EOFError,
         {| st_stdin := []; st_files := st_files st4;
            st_trace := st_trace st4
                        ++ [EvPrint header; EvPrint body;
                            EvInput press_enter_prompt] |})
    | _ :: rest =>
        (Return tt,
         {| st_stdin := rest; st_files := st_files st4;
            st_trace := st_trace st4
                        ++ [EvPrint header; EvPrint body;
                            EvInput press_enter_prompt]
                        ++ [EvSystem (clear_command w)] |})
    end
    /\ st_files (main w st).2 = st_files st).
  { intros body Hd.
    rewrite (display_branch_shown w st region name st3 V st4 body Hmode Hu Hf Hd).
    split; [reflexivity|].
    destruct (st_stdin st4); simpl; congruence. }
  assert (Hraise : forall e,
    display w V st4 = (Raise e, st4) ->
    main w st = (Raise e, st4) /\ st_files (main w st).2 = st_files st).
  { intros e Hd.
    assert (Hmain : main w st = (Raise e, st4)).
    { rewrite main_until_fetch, (bind_return _ _ _ _ _ Hu). simpl.
      rewrite (bind_return _ _ _ _ _ Hf).
      unfold deliver. rewrite Hmode. by apply bind_raise. }
    split; [exact Hmain|]. rewrite Hmain. simpl. congruence. }
  pose proof (display_run w V st4) as Hd. unfold display_text.
  destruct (json_loads w V) as [e|obj]; [|by apply Hshown].
  destruct e; first [by apply Hshown | by apply Hraise].
Qed.

(** ** Writing *)

(** X9. Write mode with a path that cannot be created.  After a fetch that
    returned a value, open raises OSError, which nothing catches: the run
    ends there, no file is created or changed, no confirmation is printed,
    and the value that was fetched is lost. *)
Theorem write_mode_unwritable_path w path st region name st3 V st4 :
  args_output w = Some path ->
  path <> EmptyString ->
  creatable w path = false ->
  until_fetch w st = (Return (region, name), st3) ->
  fetch_secret w name region st3 = (Return (Some V), st4) ->
  main w st = (Raise (OSError path), add_events [EvOpenW path] st4)
  /\ st_files (main w st).2 = st_files st.
Proof.
  intros Hout Hne Hc Hu Hf.
  assert (Hmode : truthy (args_output w) = true).
  { rewrite Hout. simpl. apply String.eqb_neq in Hne. by rewrite Hne. }
  assert (Hmain : main w st
                  = (Raise (OSError path), add_events [EvOpenW path] st4)).
  { rewrite main_until_fetch, (bind_return _ _ _ _ _ Hu). simpl.
    rewrite (bind_return _ _ _ _ _ Hf).
    unfold deliver. rewrite Hmode, Hout. simpl.
    unfold write_to_file, open_w. rewrite !bind_run, Hc. reflexivity. }
  split; [exact Hmain|]. rewrite Hmain. simpl.
  pose proof (respects_result _ _ _ _ _ (until_fetch_same_files w) Hu) as H1.
  pose proof (respects_result _ _ _ _ _
                (fetch_secret_same_files w name region) Hf) as H2.
  unfold same_files in *. congruence.
Qed.

(** X10. write_to_file replaces: after two writes to one path the file
    holds the second text alone, whatever the first was and however long,
    and every other file is as before the first write. *)
Theorem write_to_file_twice w V1 V2 path st :
  creatable w path = true ->
  let st1 := (write_to_file w V1 path st).2 in
  let st2 := (write_to_file w V2 path st1).2 in
  (write_to_file w V2 path st1).1 = Return tt
  /\ st_files st2 = <[path := V2]> (st_files st)
  /\ st_files st2 = st_files (write_to_file w V2 path st).2.
Proof.
  intros Hc. cbv zeta.
  rewrite !(write_to_file_run w _ path _ Hc). simpl.
  by rewrite insert_insert_eq.
Qed.

Lemma same_files_same_file_at path (m : M unit) :
  respects same_files m -> respects (same_file_at path) m.
Proof. intros H st. unfold same_file_at. by rewrite (H st). Qed.

Lemma deliver_same_file_at w path v :
  truthy (args_output w) = false \/ args_output w <> Some path ->
  respects (same_file_at path) (deliver w v).
Proof.
  intros Hp. unfold deliver. destruct v as [v|].
  - destruct (truthy (args_output w)) eqn:Hmode.
    + destruct Hp as [|Hp]; [discriminate|].
      destruct (args_output w) as [out|]; [|discriminate]. simpl.
      assert (out <> path) by congruence.
      apply respects_bind; [apply _ | | intros _].
      * unfold write_to_file.
        apply respects_bind; [apply _ | | intros _].
        -- intros st. unfold open_w, same_file_at.
           destruct (creatable w out); simpl; [|done].
           by rewrite lookup_insert_ne.
        -- intros st. unfold file_write, same_file_at. simpl.
           by rewrite lookup_insert_ne.
      * intros st. reflexivity.
    + apply same_files_same_file_at.
      unfold display, py_json_loads, clear_screen, os_system, print.
      respects_auto.
  - intros st. reflexivity.
Qed.

(** X11. No run of main changes, creates or removes a file other than the
    one --output names: in display mode (flag absent or empty) every file
    is as it was, and in write mode every path but the output path is. *)
Theorem main_touches_only_output w st path :
  truthy (args_output w) = false \/ args_output w <> Some path ->
  st_files (main w st).2 !! path = st_files st !! path.
Proof.
  intros Hp. revert st.
  change (respects (same_file_at path) (main w)).
  assert (Hfetch : respects (same_file_at path)
    ('(region_name, secret_name) ← until_fetch w;
     secret_value ← fetch_secret w secret_name region_name;
     deliver w secret_value)).
  { apply respects_bind; [apply _ | | intros [region name]].
    { intros st. unfold same_file_at. by rewrite (until_fetch_same_files w st). }
    apply respects_bind; [apply _ | | intros v].
    { intros st. unfold same_file_at.
      by rewrite (fetch_secret_same_files w name region st). }
    by apply deliver_same_file_at. }
  intros st. rewrite main_until_fetch. apply Hfetch.
Qed.

(** ** When the input ends *)

(** X12. main has no answer to an input that ends.  At the prompt for the
    region (variable unset or empty) the run stops with EOFError before any
    call to the service; at the prompt of the menu it stops with EOFError
    after the listing, and nothing is fetched. *)
Theorem end_of_input_ends_run w st :
  (truthy (environ w !! "AWS_DEFAULT_REGION") = false ->
   st_stdin st = [] ->
   main w st
   = (Raise EOFError,
      {| st_stdin := []; st_files := st_files st;
         st_trace := st_trace st ++ [EvInput region_prompt] |}))
  /\ (forall region names st2,
        until_menu w st = (Return (region, names), st2) ->
        st_stdin st2 = [] ->
        main w st
        = (Raise EOFError,
           {| st_stdin := []; st_files := st_files st2;
              st_trace := st_trace st2 ++ [EvInput select_prompt] |})).
Proof.
  split.
  - intros Henv Hin. rewrite main_after_region.
    apply bind_raise. unfold resolve_region, os_getenv.
    rewrite bind_run. simpl. rewrite Henv. simpl.
    unfold input. by rewrite Hin.
  - intros region names st2 Hu Hin.
    rewrite main_until_menu, (bind_return _ _ _ _ _ Hu). simpl.
    apply bind_raise. by apply select_secret_eof.
Qed.

(** ** No second try *)

Lemma no_fetch_call_count evs :
  Forall (fun ev => is_fetch_call ev = false) evs ->
  length (filter (fun ev => is_fetch_call ev = true) evs) = 0%nat.
Proof.
  induction 1 as [|ev evs Hev _ IH]; [reflexivity|].
  rewrite filter_cons_False; [exact IH | congruence].
Qed.

Lemma fetch_secret_one_call w secret_name region_name st :
  exists evs,
    st_trace (fetch_secret w secret_name region_name st).2 = st_trace st ++ evs
    /\ (length (filter (fun ev => is_fetch_call ev = true) evs) <= 1)%nat.
Proof.
  destruct (session_client w region_name) as [e|client] eqn:Hc.
  - exists [EvClient region_name]. split; [|simpl; lia].
    unfold fetch_secret.
    by rewrite (bind_raise _ _ _ _ _ (new_client_fails _ _ _ _ Hc)).
  - rewrite (fetch_secret_run _ _ _ _ _ Hc). cbv zeta.
    set (called := [EvClient region_name;
                    EvGetSecretValue region_name secret_name]).
    destruct (get_secret_value client secret_name) as [e|response].
    + destruct e as [code text| | | | | | | |];
        try (exists called; split; [reflexivity | simpl; lia]).
      eexists (called ++ [EvPrint _]). split.
      * simpl. by rewrite <- app_assoc.
      * simpl. lia.
    + destruct (resp_SecretString response);
        (exists called; split; [reflexivity | simpl; lia]).
Qed.

(** X13. A run asks for a secret's value at most once: no retry after a
    failure, no second fetch after a success, whatever the service answers
    and whatever is typed. *)
Theorem at_most_one_fetch w st :
  exists evs,
    st_trace (main w st).2 = st_trace st ++ evs
    /\ (length (filter (fun ev => is_fetch_call ev = true) evs) <= 1)%nat.
Proof.
  set (quiet := fun ev => is_fetch_call ev = false).
  assert (Hpre : respects (emits_only quiet) (until_fetch w)).
  { unfold until_fetch.
    apply respects_bind; [apply _ | | intros [region names]].
    - apply until_menu_no_fetch.
      intros ev Hne. destruct ev as [| | | |r n| | |]; try reflexivity.
      by destruct (Hne r n).
    - apply respects_bind; [apply _ | | intros name; respects_step].
      unfold select_secret, int, getitem. respects_auto. reflexivity. }
  rewrite main_until_fetch, bind_run.
  destruct (Hpre st) as (evs1 & H1 & HF1).
  destruct (until_fetch w st) as [[[region name]|e] st3]; simpl in *.
  - rewrite bind_run.
    destruct (fetch_secret_one_call w name region st3) as (evs2 & H2 & Hc2).
    destruct (fetch_secret w name region st3) as [[v|e] st4]; simpl in *.
    + destruct (deliver_no_service_call w quiet v
                  ltac:(by intros []) st4) as (evs3 & H3 & HF3).
      exists (evs1 ++ evs2 ++ evs3). split.
      * rewrite H3, H2, H1. by rewrite <- !app_assoc.
      * rewrite !filter_app, !length_app.
        rewrite (no_fetch_call_count _ HF1), (no_fetch_call_count _ HF3). lia.
    + exists (evs1 ++ evs2). split.
      * rewrite H2, H1. by rewrite <- app_assoc.
      * rewrite filter_app, length_app, (no_fetch_call_count _ HF1). lia.
  - exists evs1. split; [exact H1|].
    rewrite (no_fetch_call_count _ HF1). lia.
Qed.


(** ** Numbers below the menu *)

(** X14. The selection has no lower bound.  With [len] names on the menu,
    a plain line (ASCII, at most 640 characters: there [parse_int] is
    int()) that reads as an integer from 0 down to 1 - len raises nothing:
    the list is indexed from its end, so 0 selects the last name, -1 the
    one before it, and so on down to 1 - len, which selects the first; that
    name is handed to fetch_secret like any other. *)
Theorem selection_from_end w st region names st2 line rest n :
  until_menu w st = (Return (region, names), st2) ->
  st_stdin st2 = line :: rest ->
  plain_line line = true ->
  parse_int line = Some n ->
  - Z.of_nat (length names) < n <= 0 ->
  exists name,
    names !! Z.to_nat (Z.of_nat (length names) + n - 1) = Some name
    /\ (n = 0 -> last names = Some name)
    /\ (n = 1 - Z.of_nat (length names) -> head names = Some name)
    /\ main w st =
       (fetch_secret w name region ≫= deliver w)
         {| st_stdin := rest; st_files := st_files st2;
            st_trace := st_trace st2 ++ [EvInput select_prompt] |}.
Proof.
  intros Hu Hin _ Hparse Hn.
  destruct (selection_counts_from_end w st region names st2 line rest n
              Hu Hin Hparse Hn) as (name & Hname & Hmain).
  replace (n - 1 + Z.of_nat (length names))
    with (Z.of_nat (length names) + n - 1) in Hname by lia.
  exists name. split; [exact Hname|]. split; [|split; [|exact Hmain]].
  - intros ->. rewrite last_lookup, <- Hname. f_equal. lia.
  - intros ->. rewrite head_lookup, <- Hname. f_equal. lia.
Qed.

(** * Further runs of the sample worlds *)

(** The name that is gone gives None, the first name gives its text, the
    secret stored as bytes gives neither. *)
Lemma fetch_secret_result_iff_witness :
  let w := Sample.world None None in
  let st := Sample.typed [] in
  (fetch_secret w "gone" "us-west-2" st).1 = Return None
  /\ (fetch_secret w "alpha" "us-west-2" st).1 = Return (Some Sample.kv_text)
  /\ (fetch_secret w "blob" "us-west-2" st).1 <> Return None.
Proof.
  intros w st. split; [|split].
  - destruct (fetch_secret_result_iff w "gone" "us-west-2" Sample.west_client
                st eq_refl) as (Hnone & _).
    apply Hnone. by eexists _, _.
  - destruct (fetch_secret_result_iff w "alpha" "us-west-2" Sample.west_client
                st eq_refl) as (_ & Hsome).
    apply Hsome. by eexists.
  - destruct (fetch_secret_result_iff w "blob" "us-west-2" Sample.west_client
                st eq_refl) as (Hnone & _).
    intros H. apply Hnone in H as (code & text & H). discriminate.
Defined.

(** A region that cannot be reached, and a call that times out. *)
Lemma fetch_secret_lets_through_witness :
  let w := Outage.world None None in
  let st := Sample.typed [] in
  fetch_secret w "alpha" "ap-south-1" st
  = (Raise (BotoCoreError "Could not connect to the endpoint URL"),
     add_events [EvClient "ap-south-1"] st)
  /\ fetch_secret w "alpha" "us-east-1" st
     = (Raise Outage.timeout,
        add_events
          [EvClient "us-east-1"; EvGetSecretValue "us-east-1" "alpha"] st).
Proof.
  intros w st.
  destruct (fetch_secret_lets_through w "alpha" "ap-south-1" st) as (Hbuild & _).
  destruct (fetch_secret_lets_through w "alpha" "us-east-1" st) as (_ & Hcall).
  split.
  - apply Hbuild. reflexivity.
  - apply (Hcall Outage.flaky_client); reflexivity.
Defined.

(** The same two troubles at the listing: the first page of us-east-1 has
    arrived when the second times out. *)
Lemma listing_failure_ends_run_witness :
  main (Outage.world (Some "ap-south-1") None) (Sample.typed ["1"])
  = (Raise (BotoCoreError "Could not connect to the endpoint URL"),
     add_events [EvClient "ap-south-1"] (Sample.typed ["1"]))
  /\ main (Outage.world (Some "us-east-1") None) (Sample.typed ["1"])
     = (Raise Outage.timeout,
        add_events
          [EvClient "us-east-1"; EvListSecretsPage "us-east-1";
           EvListSecretsPage "us-east-1"] (Sample.typed ["1"])).
Proof.
  split.
  - destruct (listing_failure_ends_run (Outage.world (Some "ap-south-1") None)
                (Sample.typed ["1"]) "ap-south-1" (Sample.typed ["1"]) eq_refl)
      as (Hbuild & _).
    apply Hbuild. reflexivity.
  - destruct (listing_failure_ends_run (Outage.world (Some "us-east-1") None)
                (Sample.typed ["1"]) "us-east-1" (Sample.typed ["1"]) eq_refl)
      as (_ & Hpage).
    destruct (Hpage Outage.flaky_client
                [ {| SecretList := [Sample.entry "alpha"; Sample.entry "gone"] |} ]
                Outage.timeout
                [ inr {| SecretList := [Sample.entry "beta"] |} ]
                eq_refl eq_refl) as (_ & Hmain).
    exact Hmain.
Defined.

(** The second name of three stands on the third line, under 2. *)
Lemma print_menu_lines_witness :
  menu_events ["alpha"; "gone"; "locked"] !! 2%nat = Some (EvPrint "2. gone")
  /\ length (menu_events ["alpha"; "gone"; "locked"]) = 4%nat.
Proof.
  destruct (print_menu_lines ["alpha"; "gone"; "locked"] (Sample.typed []))
    as (_ & _ & _ & Hlen & Hline).
  split; [|exact Hlen].
  apply (Hline 1%nat "gone"). reflexivity.
Defined.

(** The menu shows 3. locked; 3 typed back selects locked. *)
Lemma menu_number_selects_witness :
  let w := Sample.world None None in
  let st := Sample.typed ["us-west-2"; "3"] in
  EvPrint "3. locked" ∈ st_trace (until_menu w st).2
  /\ exists st3,
       main w st = (fetch_secret w "locked" "us-west-2" ≫= deliver w) st3.
Proof.
  intros w st.
  destruct (menu_number_selects w st "us-west-2"
              ["alpha"; "gone"; "locked"; "blob"; "beta"]
              (until_menu w st).2 2%nat "locked" [])
    as (Hshown & Hmain).
  - reflexivity.
  - reflexivity.
  - reflexivity.
  - split; [exact Hshown|]. eexists. exact Hmain.
Defined.

(** 0 selects the last of the five names, -4 the first. *)
Lemma selection_from_end_witness :
  let w := Sample.world None None in
  (exists st3,
      main w (Sample.typed ["us-west-2"; "0"])
      = (fetch_secret w "beta" "us-west-2" ≫= deliver w) st3)
  /\ (exists st3,
      main w (Sample.typed ["us-west-2"; "-4"])
      = (fetch_secret w "alpha" "us-west-2" ≫= deliver w) st3).
Proof.
  intros w.
  pose (names := ["alpha"; "gone"; "locked"; "blob"; "beta"]).
  split.
  - destruct (selection_from_end w (Sample.typed ["us-west-2"; "0"])
                "us-west-2" names
                (until_menu w (Sample.typed ["us-west-2"; "0"])).2 "0" [] 0)
      as (name & Hname & _ & _ & Hmain);
      [reflexivity | reflexivity | reflexivity | reflexivity | simpl; lia |].
    injection Hname as <-. eexists. exact Hmain.
  - destruct (selection_from_end w (Sample.typed ["us-west-2"; "-4"])
                "us-west-2" names
                (until_menu w (Sample.typed ["us-west-2"; "-4"])).2 "-4" [] (-4))
      as (name & Hname & _ & _ & Hmain);
      [reflexivity | reflexivity | reflexivity | reflexivity | simpl; lia |].
    injection Hname as <-. eexists. exact Hmain.
Defined.

(** Whatever is typed in us-west-2, a fetch names one of the five. *)
Lemma only_listed_names_are_fetched_witness :
  let w := Sample.world None None in
  let st := Sample.typed ["us-west-2"; "0"; EmptyString] in
  emits_only
    (fetches_listed "us-west-2" ["alpha"; "gone"; "locked"; "blob"; "beta"])
    st (main w st).2.
Proof.
  intros w st.
  apply (only_listed_names_are_fetched w st "us-west-2"
           ["alpha"; "gone"; "locked"; "blob"; "beta"] (until_menu w st).2).
  reflexivity.
Defined.

(** On the Windows console the display ends with cls; with nothing left to
    type it ends with EOFError and no command; the long number ends the run
    before anything is shown. *)
Lemma display_mode_ending_witness :
  let w := Outage.world None None in
  (main w (Sample.typed ["us-west-2"; "5"; EmptyString])).1 = Return tt
  /\ last (st_trace (main w (Sample.typed ["us-west-2"; "5"; EmptyString])).2)
     = Some (EvSystem "cls")
  /\ (main w (Sample.typed ["us-west-2"; "5"])).1 = Raise EOFError
  /\ last (st_trace (main w (Sample.typed ["us-west-2"; "5"])).2)
     = Some (EvInput press_enter_prompt)
  /\ (main Limits.world (Sample.typed ["1"; EmptyString])).1
     = Raise Sample.digit_limit_error
  /\ last (st_trace (main Limits.world (Sample.typed ["1"; EmptyString])).2)
     = Some (EvGetSecretValue "us-west-2" "digits").
Proof.
  intros w.
  destruct (display_mode_ending w (Sample.typed ["us-west-2"; "5"; EmptyString])
              "us-west-2" "beta"
              (until_fetch w (Sample.typed ["us-west-2"; "5"; EmptyString])).2
              "plain-text-secret"
              (fetch_secret w "beta" "us-west-2"
                 (until_fetch w
                    (Sample.typed ["us-west-2"; "5"; EmptyString])).2).2)
    as (Hline & _);
    [reflexivity | vm_compute; reflexivity | vm_compute; reflexivity |].
  destruct (display_mode_ending w (Sample.typed ["us-west-2"; "5"])
              "us-west-2" "beta"
              (until_fetch w (Sample.typed ["us-west-2"; "5"])).2
              "plain-text-secret"
              (fetch_secret w "beta" "us-west-2"
                 (until_fetch w (Sample.typed ["us-west-2"; "5"])).2).2)
    as (Hend & _);
    [reflexivity | vm_compute; reflexivity | vm_compute; reflexivity |].
  destruct (display_mode_ending Limits.world (Sample.typed ["1"; EmptyString])
              "us-west-2" "digits"
              (until_fetch Limits.world (Sample.typed ["1"; EmptyString])).2
              Limits.long_number
              (fetch_secret Limits.world "digits" "us-west-2"
                 (until_fetch Limits.world
                    (Sample.typed ["1"; EmptyString])).2).2)
    as (Hlong & _);
    [reflexivity | vm_compute; reflexivity | vm_compute; reflexivity |].
  rewrite Hline, Hend, Hlong. vm_compute. repeat split.
Defined.

(** The fetch succeeds, the path is refused. *)
Lemma write_mode_unwritable_path_witness :
  let w := Sample.world None (Some "/proc/denied") in
  let st := Sample.typed ["us-west-2"; "5"] in
  (main w st).1 = Raise (OSError "/proc/denied")
  /\ last (st_trace (main w st).2) = Some (EvOpenW "/proc/denied")
  /\ st_files (main w st).2 = ∅.
Proof.
  intros w st.
  destruct (write_mode_unwritable_path w "/proc/denied" st "us-west-2" "beta"
              (until_fetch w st).2 "plain-text-secret"
              (fetch_secret w "beta" "us-west-2" (until_fetch w st).2).2)
    as (Hmain & Hfiles);
    [reflexivity | discriminate | reflexivity
    | vm_compute; reflexivity | vm_compute; reflexivity |].
  split; [by rewrite Hmain|]. split; [by rewrite Hmain | exact Hfiles].
Defined.

(** A long text, then a short one. *)
Lemma write_to_file_twice_witness :
  let w := Sample.world None (Some "out.txt") in
  let st := Sample.typed [] in
  let st1 := (write_to_file w "a first and longer text" "out.txt" st).2 in
  let st2 := (write_to_file w "short" "out.txt" st1).2 in
  st_files st2 !! "out.txt" = Some "short".
Proof.
  intros w st st1 st2.
  destruct (write_to_file_twice w "a first and longer text" "short" "out.txt"
              st eq_refl) as (_ & Hfiles & _).
  subst st2 st1. rewrite Hfiles. apply lookup_insert_eq.
Defined.

(** A run that writes out.txt leaves notes.txt alone. *)
Lemma main_touches_only_output_witness :
  let w := Sample.world None (Some "out.txt") in
  let st := init ["us-west-2"; "5"] {[ "notes.txt" := "keep" ]} in
  st_files (main w st).2 !! "notes.txt" = Some "keep".
Proof.
  intros w st.
  rewrite (main_touches_only_output w st "notes.txt"); [reflexivity|].
  right. discriminate.
Defined.

(** Nothing typed at all, and nothing typed after the menu. *)
Lemma end_of_input_ends_run_witness :
  (main (Sample.world None None) (Sample.typed [])).1 = Raise EOFError
  /\ st_trace (main (Sample.world None None) (Sample.typed [])).2
     = [EvInput region_prompt]
  /\ (main (Sample.world (Some "us-west-2") None) (Sample.typed [])).1
     = Raise EOFError.
Proof.
  destruct (end_of_input_ends_run (Sample.world None None) (Sample.typed []))
    as (Hregion & _).
  destruct (end_of_input_ends_run (Sample.world (Some "us-west-2") None)
              (Sample.typed [])) as (_ & Hmenu).
  rewrite (Hregion eq_refl eq_refl).
  rewrite (Hmenu "us-west-2" ["alpha"; "gone"; "locked"; "blob"; "beta"]
             (until_menu (Sample.world (Some "us-west-2") None)
                (Sample.typed [])).2 eq_refl eq_refl).
  repeat split.
Defined.
